(** * ISS overhead notifier

    A shallow embedding of [main1.py]: the two HTTP fetchers, the overhead and
    night predicates, the mail notifier and the polling loop, followed by the
    properties its specification states about them.

    Conventions.
    - Python [int] is [Z]; Python [float] is the kernel's binary64 [float], so
      subtraction, [math.fabs] and [<] round and compare as they do in CPython.
    - A Python value that may be [None] is an [option].
    - Code that can raise returns a [result]; code that prints, performs HTTP
      or SMTP traffic, assigns the loop's flag or sleeps also returns the list
      of those actions in program order (type [prog]).
    - Whatever the outside world answers during one loop iteration (the two
      HTTP replies, the UTC hour, the fate of the SMTP session) is the
      iteration's [tick_env]; the endless [while True] is run over a finite
      list of them, one per iteration. *)

From Stdlib Require Import QArith Qabs Qpower.
From Stdlib Require Import ZArith List String Ascii Bool Lia.
From Stdlib Require Import PrimFloat FloatOps SpecFloat FloatAxioms.
Import ListNotations.

Local Open Scope string_scope.
Local Open Scope Z_scope.

(** ** Python runtime: exceptions and JSON values *)

Module Py.

(** The exception classes that can reach the script's handlers.
    [RequestException] stands for [requests.exceptions.RequestException]
    together with its subclasses (connection errors, timeouts, [HTTPError]);
    [SMTPError] for whatever [smtplib] or the socket layer raises. *)
Inductive exn : Type :=
| RequestException
| KeyError
| ValueError
| TypeError
| IndexError
| AttributeError
| OverflowError
| SMTPError.

Definition is_RequestException (e : exn) : bool :=
  match e with RequestException => true | _ => false end.

(** [except Exception] catches every class above. *)
Definition is_Exception (e : exn) : bool := true.

Inductive result (A : Type) : Type :=
| Ok (a : A)
| Raise (e : exn).

Arguments Ok {A} a.
Arguments Raise {A} e.

(** What [json.loads] can build.  An object keeps its members in document
    order; a repeated name is resolved to its last member, as the decoder's
    dictionary does. *)
#[local] Unset Elimination Schemes.
Inductive json : Type :=
| JNull
| JBool (b : bool)
| JInt (z : Z)
| JFloat (f : float)
| JStr (s : string)
| JArr (items : list json)
| JObj (members : list (string * json)).
#[local] Set Elimination Schemes.

Fixpoint dict_get (k : string) (members : list (string * json)) : option json :=
  match members with
  | [] => None
  | (k', v) :: rest =>
      match dict_get k rest with
      | Some w => Some w
      | None => if String.eqb k k' then Some v else None
      end
  end.

(** [str.split(sep)] for a one-character separator: never empty, one more
    piece than there are separators. *)
Fixpoint split (sep : ascii) (s : string) : list string :=
  match s with
  | EmptyString => [EmptyString]
  | String c rest =>
      if Ascii.eqb c sep then EmptyString :: split sep rest
      else match split sep rest with
           | [] => [String c EmptyString]
           | piece :: pieces => String c piece :: pieces
           end
  end.

(** [float(n)] for an integer [n]: the nearest binary64 value, ties to even;
    [None] where CPython raises [OverflowError]. *)
Definition float_of_int (z : Z) : option float :=
  let f := SF2Prim (binary_normalize prec emax z 0 false) in
  if is_infinity f then None else Some f.

End Py.

Import Py.

(** ** Plain decimal parsers

    [int] and [float] applied to a string are parameters of the model (see
    the section below).  The two functions here read the plain decimal
    strings the two web services send, and serve as concrete instances. *)

Definition digit_of (c : ascii) : option Z :=
  let n := Z.of_nat (nat_of_ascii c) in
  if (48 <=? n) && (n <=? 57) then Some (n - 48) else None.

Fixpoint digits_value (acc : Z) (s : string) : option Z :=
  match s with
  | EmptyString => Some acc
  | String c rest =>
      match digit_of c with
      | Some d => digits_value (10 * acc + d) rest
      | None => None
      end
  end.

Definition decimal_int (s : string) : option Z :=
  match s with
  | EmptyString => None
  | _ => digits_value 0 s
  end.

(** [[-]digits[.digits]] with at most 2^53 as significand and at most 22
    fractional digits: both the significand and the power of ten are exact in
    binary64, so the one rounded division is the correctly rounded value. *)
Definition decimal_float (s : string) : option float :=
  let '(negative, body) :=
    match s with
    | String "-" rest => (true, rest)
    | _ => (false, s)
    end in
  let sign (f : float) := if negative then (- f)%float else f in
  let quotient (n : Z) (k : nat) :=
    if (n <? 2 ^ 53) && (Nat.leb k 22) then
      match float_of_int n, float_of_int (10 ^ Z.of_nat k) with
      | Some fn, Some fk => Some (sign (fn / fk)%float)
      | _, _ => None
      end
    else None in
  match split "." body with
  | [whole] =>
      match decimal_int whole with
      | Some n => quotient n 0%nat
      | None => None
      end
  | [whole; frac] =>
      match decimal_int whole, decimal_int frac with
      | Some _, Some _ =>
          match decimal_int (whole ++ frac) with
          | Some n => quotient n (String.length frac)
          | None => None
          end
      | _, _ => None
      end
  | _ => None
  end.

(** ** Observable actions and the monad of the script *)

(** The lines the script prints, by the statement that prints them. *)
Inductive message : Type :=
| MsgStarted
| MsgMonitoring (lat long : float)
| MsgCredentialsMissing
| MsgNotificationsOff
| MsgNotificationsOn (sender receiver : option string)
| MsgIssFetchError
| MsgSunFetchError
| MsgCurrentLocation (lat long : float)
| MsgWithinRange
| MsgDark
| MsgLookUp
| MsgDaytime
| MsgNotOverhead
| MsgWaiting
| MsgEmailSent
| MsgEmailFailed
| MsgCheckConfiguration.

Inductive action : Type :=
| HttpGet (url : string) (params : list (string * json))
| Print (m : message)
| SendMail (sender receiver password : option string) (iss_lat iss_long : float)
| SetFlag (b : bool)
| Sleep (seconds : Z).

(** A computation: the actions performed so far, in order, and either a
    value or the exception that stopped it. *)
Definition prog (A : Type) : Type := list action * result A.

Definition ret {A} (a : A) : prog A := ([], Ok a).

Definition raise {A} (e : exn) : prog A := ([], Raise e).

Definition emit (a : action) : prog unit := ([a], Ok tt).

Definition bind {A B} (m : prog A) (k : A -> prog B) : prog B :=
  match m with
  | (t, Ok a) => let '(t', r) := k a in ((t ++ t')%list, r)
  | (t, Raise e) => (t, Raise e)
  end.

(** [try: body except <classes>: handler]. *)
Definition try_except {A} (body : prog A) (catches : exn -> bool)
    (handler : prog A) : prog A :=
  match body with
  | (t, Ok a) => (t, Ok a)
  | (t, Raise e) =>
      if catches e then let '(t', r) := handler in ((t ++ t')%list, r)
      else (t, Raise e)
  end.

Declare Scope prog_scope.
Delimit Scope prog_scope with prog.
Bind Scope prog_scope with prog.

Notation "x <- m ;; k" := (bind m (fun x => k))
  (at level 61, m at next level, right associativity) : prog_scope.
Notation "' p <- m ;; k" := (bind m (fun p => k))
  (at level 61, p pattern, m at next level, right associativity) : prog_scope.
Notation "m ;; k" := (bind m (fun _ => k))
  (at level 61, right associativity) : prog_scope.

Notation "m >>= k" := (bind m k) (at level 58, left associativity) : prog_scope.

Local Open Scope prog_scope.

Definition trace {A} (p : prog A) : list action := fst p.

Definition outcome {A} (p : prog A) : result A := snd p.

(** [d[k]] for a string key. *)
Definition getitem (d : json) (k : string) : prog json :=
  match d with
  | JObj members =>
      match dict_get k members with
      | Some v => ret v
      | None => raise KeyError
      end
  | _ => raise TypeError
  end.

(** [v.split(sep)]: only a string has the method. *)
Definition split_method (v : json) (sep : ascii) : prog (list string) :=
  match v with
  | JStr s => ret (split sep s)
  | _ => raise AttributeError
  end.

(** [pieces[i]] on a list, for [i >= 0]. *)
Definition list_item (pieces : list string) (i : nat) : prog string :=
  match nth_error pieces i with
  | Some p => ret p
  | None => raise IndexError
  end.

(** ** What the outside world answers *)

(** The fate of [requests.get(...)], [raise_for_status()] and [.json()]. *)
Inductive http_reply : Type :=
| GetRaises
| StatusRaises
| JsonRaises (e : exn)
| JsonOk (data : json).

(** A reply on which [requests] itself raises. *)
Definition request_fails (reply : http_reply) : Prop :=
  reply = GetRaises \/ reply = StatusRaises \/
  reply = JsonRaises RequestException.

(** One loop iteration's worth of the outside world.  [sun_reply],
    [utc_hour] and [smtp_error] are consulted only when the iteration gets
    that far; [smtp_error = Some e] means the SMTP session raises [e]. *)
Record tick_env : Type := {
  iss_reply : http_reply;
  sun_reply : http_reply;
  utc_hour : Z;
  smtp_error : option exn
}.

(** The three environment variables, as [os.environ.get] returns them. *)
Record config : Type := {
  SENDER_EMAIL : option string;
  RECEIVER_EMAIL : option string;
  EMAIL_PASSWORD : option string
}.

(** Python's [not v] for [v] a string or [None]. *)
Definition py_not (v : option string) : bool :=
  match v with
  | None => true
  | Some EmptyString => true
  | Some (String _ _) => false
  end.

(** All three variables are set and non-empty. *)
Definition credentials_present (cfg : config) : Prop :=
  py_not (SENDER_EMAIL cfg) = false /\
  py_not (RECEIVER_EMAIL cfg) = false /\
  py_not (EMAIL_PASSWORD cfg) = false.

(** ** Constants of the script *)

Definition MY_LAT : float := 0x1.a8bb98c7e2824p+4%float.   (* 26.5458 *)
Definition MY_LONG : float := 0x1.34142c3c9eeccp+6%float.  (* 77.0197 *)

Definition ISS_API_URL : string := "http://api.open-notify.org/iss-now.json".
Definition SUNRISE_SUNSET_API_URL : string := "https://api.sunrise-sunset.org/json".

(** ** The pure predicates *)

Definition is_iss_overhead (my_lat my_long iss_lat iss_long : float) : bool :=
  if ((abs (my_lat - iss_lat) <? 5) && (abs (my_long - iss_long) <? 5))%float
  then true
  else false.

Definition is_night (sunrise_utc sunset_utc : option Z) (current_utc_hour : Z)
    : bool :=
  match sunrise_utc, sunset_utc with
  | Some sunrise, Some sunset =>
      if sunset <? sunrise
      then (current_utc_hour >=? sunset) || (current_utc_hour <? sunrise)
      else (current_utc_hour >=? sunset) && (current_utc_hour <? sunrise)
  | _, _ => true
  end.

(** ** Exact values of coordinates

    A finite binary64 number is a rational; the distance the script
    computes is the rounded one.  These definitions give the exact one, to
    state how far the rounded test may depart from it. *)

(** The number 5 as the script's comparison sees it. *)
Definition five_sf : spec_float := S754_finite false 5629499534213120 (-50).

(** The value of a finite number in units of 2^-1074, the spacing of the
    smallest binary64 numbers: an integer for every valid number. *)
Definition SFunits (x : spec_float) : option Z :=
  match x with
  | S754_zero _ => Some 0
  | S754_finite s m e => Some (cond_Zopp s (Zpos m) * 2 ^ (e + 1074))
  | S754_infinity _ | S754_nan => None
  end.

(** The rational number a finite binary64 value stands for:
    sign * mantissa * 2^exponent; none for NaN and the infinities. *)
Definition SF2Q (x : spec_float) : option Q :=
  match x with
  | S754_zero _ => Some 0%Q
  | S754_finite s m e => Some (inject_Z (cond_Zopp s (Zpos m)) * (2 # 1) ^ e)%Q
  | S754_infinity _ | S754_nan => None
  end.

Definition float_value (x : float) : option Q := SF2Q (Prim2SF x).

(** The exact distance |a - b| of two finite coordinates. *)
Definition exact_distance (a b : float) : option Q :=
  match float_value a, float_value b with
  | Some va, Some vb => Some (Qabs (va - vb))
  | _, _ => None
  end.

(** ** Reading a trace *)

Definition is_send (a : action) : bool :=
  match a with SendMail _ _ _ _ _ => true | _ => false end.

Definition is_set_true (a : action) : bool :=
  match a with SetFlag true => true | _ => false end.

Definition is_assignment (a : action) : bool :=
  match a with SetFlag _ => true | _ => false end.

(** Actions that belong to notifying: the SMTP session, its two reports and
    the assignment that follows it.  Everything else is monitoring. *)
Definition is_notification (a : action) : bool :=
  match a with
  | SendMail _ _ _ _ _ => true
  | SetFlag true => true
  | Print MsgEmailSent | Print MsgEmailFailed | Print MsgCheckConfiguration => true
  | _ => false
  end.

Definition monitoring (t : list action) : list action :=
  filter (fun a => negb (is_notification a)) t.

Definition send_count (t : list action) : nat := List.length (filter is_send t).

Fixpoint first_index (p : action -> bool) (t : list action) : option nat :=
  match t with
  | [] => None
  | a :: rest =>
      if p a then Some 0%nat
      else match first_index p rest with
           | Some i => Some (S i)
           | None => None
           end
  end.

(** The first [p]-action of the trace comes before its first [q]-action. *)
Definition precedes (p q : action -> bool) (t : list action) : bool :=
  match first_index p t, first_index q t with
  | Some i, Some j => Nat.ltb i j
  | _, _ => false
  end.

(** Fetching, printing a status line and sleeping: an action that neither
    notifies nor assigns the flag. *)
Definition is_observation (a : action) : bool :=
  negb (is_notification a) && negb (is_assignment a).

Definition quiet (t : list action) : Prop :=
  Forall (fun a => is_observation a = true) t.

Definition raised {A} (r : result A) : option exn :=
  match r with Ok _ => None | Raise e => Some e end.

(** ** Further readings of a trace *)

Definition is_sleep (a : action) : bool :=
  match a with Sleep _ => true | _ => false end.

Definition is_request_to (url : string) (a : action) : bool :=
  match a with HttpGet u _ => String.eqb u url | _ => false end.

Definition is_reset (a : action) : bool :=
  match a with SetFlag false => true | _ => false end.

Definition reset_count (t : list action) : nat :=
  List.length (filter is_reset t).

(** The character [c] occurs in [s]. *)
Fixpoint occurs_in (c : ascii) (s : string) : bool :=
  match s with
  | EmptyString => false
  | String c' rest => Ascii.eqb c' c || occurs_in c rest
  end.

(** A step that performs no action and either yields a value satisfying
    [P] or raises something other than a [RequestException]: what reading a
    decoded document amounts to. *)
Definition parses {A} (P : A -> Prop) (p : prog A) : Prop :=
  trace p = [] /\
  match outcome p with
  | Ok a => P a
  | Raise e => is_RequestException e = false
  end.

(** ** Sample replies and iterations *)

(** The position service's document, coordinates as decimal strings. *)
Definition iss_json (latitude longitude : string) : json :=
  JObj [("iss_position",
         JObj [("longitude", JStr longitude); ("latitude", JStr latitude)]);
        ("timestamp", JInt 1700000000);
        ("message", JStr "success")].

(** The daylight service's document, two ISO 8601 timestamps. *)
Definition sun_json (sunrise sunset : string) : json :=
  JObj [("results", JObj [("sunrise", JStr sunrise); ("sunset", JStr sunset)]);
        ("status", JStr "OK")].

Definition env_overhead_night : tick_env :=
  {| iss_reply := JsonOk (iss_json "26.2361" "77.5012");
     sun_reply := JsonOk (sun_json "2024-01-15T18:05:12+00:00"
                                   "2024-01-15T06:30:05+00:00");
     utc_hour := 20;
     smtp_error := None |}.

Definition env_overhead_night_smtp_fails : tick_env :=
  {| iss_reply := iss_reply env_overhead_night;
     sun_reply := sun_reply env_overhead_night;
     utc_hour := 20;
     smtp_error := Some SMTPError |}.

Definition env_overhead_day : tick_env :=
  {| iss_reply := JsonOk (iss_json "26.2361" "77.5012");
     sun_reply := JsonOk (sun_json "2024-01-15T01:45:12+00:00"
                                   "2024-01-15T12:30:05+00:00");
     utc_hour := 5;
     smtp_error := None |}.

Definition env_not_overhead : tick_env :=
  {| iss_reply := JsonOk (iss_json "-12.3456" "100.5000");
     sun_reply := GetRaises;
     utc_hour := 20;
     smtp_error := None |}.

Definition env_request_fails : tick_env :=
  {| iss_reply := GetRaises;
     sun_reply := GetRaises;
     utc_hour := 20;
     smtp_error := None |}.

Definition env_missing_field : tick_env :=
  {| iss_reply := JsonOk (JObj [("message", JStr "failure")]);
     sun_reply := GetRaises;
     utc_hour := 20;
     smtp_error := None |}.

Definition env_non_numeric : tick_env :=
  {| iss_reply := JsonOk (iss_json "n/a" "77.5012");
     sun_reply := GetRaises;
     utc_hour := 20;
     smtp_error := None |}.

Definition cfg_complete : config :=
  {| SENDER_EMAIL := Some "observer@example.org";
     RECEIVER_EMAIL := Some "watcher@example.org";
     EMAIL_PASSWORD := Some "app-password" |}.


(** Within range, but the daylight document lacks its [results]. *)
Definition env_daylight_malformed : tick_env :=
  {| iss_reply := JsonOk (iss_json "26.2361" "77.5012");
     sun_reply := JsonOk (JObj [("status", JStr "INVALID_REQUEST")]);
     utc_hour := 20;
     smtp_error := None |}.

Definition cfg_empty_password : config :=
  {| SENDER_EMAIL := Some "observer@example.org";
     RECEIVER_EMAIL := Some "watcher@example.org";
     EMAIL_PASSWORD := Some EmptyString |}.

(** ** The script *)

Section Script.

(** [float(s)] and [int(s)] for a string [s]; [None] where CPython raises
    [ValueError].  The script's behaviour is stated for every such pair. *)
Variable float_of_str : string -> option float.
Variable int_of_str : string -> option Z.

(** [float(v)] for a decoded JSON value. *)
Definition py_float (v : json) : prog float :=
  match v with
  | JStr s =>
      match float_of_str s with
      | Some f => ret f
      | None => raise ValueError
      end
  | JInt z =>
      match float_of_int z with
      | Some f => ret f
      | None => raise OverflowError
      end
  | JFloat f => ret f
  | JBool b => ret (if b then 1%float else 0%float)
  | JNull | JArr _ | JObj _ => raise TypeError
  end.

(** [int(s)] for a string. *)
Definition py_int (s : string) : prog Z :=
  match int_of_str s with
  | Some z => ret z
  | None => raise ValueError
  end.

(** [requests.get(url, ...)], [raise_for_status()] and [.json()] in a row. *)
Definition fetch_json (url : string) (params : list (string * json))
    (reply : http_reply) : prog json :=
  emit (HttpGet url params) ;;
  match reply with
  | GetRaises | StatusRaises => raise RequestException
  | JsonRaises e => raise e
  | JsonOk data => ret data
  end.

Definition get_iss_location (reply : http_reply)
    : prog (option float * option float) :=
  try_except
    (data <- fetch_json ISS_API_URL [] reply ;;
     position <- getitem data "iss_position" ;;
     latitude <- getitem position "latitude" ;;
     iss_latitude <- py_float latitude ;;
     position' <- getitem data "iss_position" ;;
     longitude <- getitem position' "longitude" ;;
     iss_longitude <- py_float longitude ;;
     ret (Some iss_latitude, Some iss_longitude))
    is_RequestException
    (emit (Print MsgIssFetchError) ;; ret (None, None)).

(** [int(data["results"][field].split("T")[1].split(":")[0])]. *)
Definition hour_of (data : json) (field : string) : prog Z :=
  results <- getitem data "results" ;;
  stamp <- getitem results field ;;
  by_T <- split_method stamp "T" ;;
  clock <- list_item by_T 1 ;;
  hour <- list_item (split ":" clock) 0 ;;
  py_int hour.

Definition get_sunrise_sunset_times (latitude longitude : float)
    (reply : http_reply) : prog (option Z * option Z) :=
  let params :=
    [("lat", JFloat latitude); ("lng", JFloat longitude); ("formatted", JInt 0)] in
  try_except
    (data <- fetch_json SUNRISE_SUNSET_API_URL params reply ;;
     sunrise_utc <- hour_of data "sunrise" ;;
     sunset_utc <- hour_of data "sunset" ;;
     ret (Some sunrise_utc, Some sunset_utc))
    is_RequestException
    (emit (Print MsgSunFetchError) ;; ret (None, None)).

(** The message is built and the TLS context created before the [try]; both
    succeed on floats.  [SendMail] is the SMTP session (connect, STARTTLS,
    login, sendmail) being attempted. *)
Definition send_iss_notification_email (sender_email receiver_email
    password : option string) (iss_lat iss_long : float)
    (smtp : option exn) : prog unit :=
  try_except
    (emit (SendMail sender_email receiver_email password iss_lat iss_long) ;;
     match smtp with
     | Some e => raise e
     | None => ret tt
     end ;;
     emit (Print MsgEmailSent))
    is_Exception
    (emit (Print MsgEmailFailed) ;; emit (Print MsgCheckConfiguration)).

(** The body of [while True], from the flag before to the flag after. *)
Definition loop_body (cfg : config) (send_emails : bool) (env : tick_env)
    (email_sent_for_current_pass : bool) : prog bool :=
  '(iss_latitude, iss_longitude) <- get_iss_location (iss_reply env) ;;
  flag <-
    match iss_latitude, iss_longitude with
    | Some iss_lat, Some iss_long =>
        emit (Print (MsgCurrentLocation iss_lat iss_long)) ;;
        if is_iss_overhead MY_LAT MY_LONG iss_lat iss_long then
          emit (Print MsgWithinRange) ;;
          '(sunrise_utc, sunset_utc) <-
            get_sunrise_sunset_times MY_LAT MY_LONG (sun_reply env) ;;
          let current_utc_hour := utc_hour env in
          if is_night sunrise_utc sunset_utc current_utc_hour then
            emit (Print MsgDark) ;;
            emit (Print MsgLookUp) ;;
            if send_emails && negb email_sent_for_current_pass then
              send_iss_notification_email (SENDER_EMAIL cfg)
                (RECEIVER_EMAIL cfg) (EMAIL_PASSWORD cfg) iss_lat iss_long
                (smtp_error env) ;;
              emit (SetFlag true) ;;
              ret true
            else ret email_sent_for_current_pass
          else
            emit (Print MsgDaytime) ;;
            emit (SetFlag false) ;;
            ret false
        else
          emit (Print MsgNotOverhead) ;;
          emit (SetFlag false) ;;
          ret false
    | _, _ => ret email_sent_for_current_pass
    end ;;
  emit (Print MsgWaiting) ;;
  emit (Sleep 60) ;;
  ret flag.

(** [while True] over the iterations the list of environments allows. *)
Fixpoint loop (cfg : config) (send_emails : bool) (envs : list tick_env)
    (email_sent_for_current_pass : bool) : prog bool :=
  match envs with
  | [] => ret email_sent_for_current_pass
  | env :: rest =>
      flag <- loop_body cfg send_emails env email_sent_for_current_pass ;;
      loop cfg send_emails rest flag
  end.

Definition main (cfg : config) (envs : list tick_env) : prog bool :=
  emit (Print MsgStarted) ;;
  emit (Print (MsgMonitoring MY_LAT MY_LONG)) ;;
  send_emails <-
    (if py_not (SENDER_EMAIL cfg) || py_not (RECEIVER_EMAIL cfg)
        || py_not (EMAIL_PASSWORD cfg)
     then
       emit (Print MsgCredentialsMissing) ;;
       emit (Print MsgNotificationsOff) ;;
       ret false
     else
       emit (Print (MsgNotificationsOn (SENDER_EMAIL cfg) (RECEIVER_EMAIL cfg))) ;;
       ret true) ;;
  loop cfg send_emails envs false.

(** ** Observations used to state the properties *)

(** The conditions of one iteration, as the script itself computes them:
    [None] when the script does not get to compute them. *)
Definition overhead_at (env : tick_env) : option bool :=
  match outcome (get_iss_location (iss_reply env)) with
  | Ok (Some iss_lat, Some iss_long) =>
      Some (is_iss_overhead MY_LAT MY_LONG iss_lat iss_long)
  | _ => None
  end.

Definition night_at (env : tick_env) : option bool :=
  match outcome (get_sunrise_sunset_times MY_LAT MY_LONG (sun_reply env)) with
  | Ok (sunrise_utc, sunset_utc) =>
      Some (is_night sunrise_utc sunset_utc (utc_hour env))
  | Raise _ => None
  end.

Definition overhead_and_night (env : tick_env) : Prop :=
  overhead_at env = Some true /\ night_at env = Some true.

Definition overhead_and_day (env : tick_env) : Prop :=
  overhead_at env = Some true /\ night_at env = Some false.

Definition not_overhead (env : tick_env) : Prop :=
  overhead_at env = Some false.

Definition position_unavailable (env : tick_env) : Prop :=
  outcome (get_iss_location (iss_reply env)) = Ok (None, None).

(** * Properties *)

(** ** The night predicate *)

(** C1.  The specification's five sample hours, evaluated on [is_night]:
    with sunrise 6 and sunset 18 the hours 12, 3 and 20 all come out as day,
    and with sunrise 18 and sunset 6 the hours 20 and 10 both come out as
    night.  The samples expect night at 3 and 20 and day at 10. *)
Theorem is_night_sample_hours :
  is_night (Some 6) (Some 18) 12 = false /\
  is_night (Some 6) (Some 18) 3 = false /\
  is_night (Some 6) (Some 18) 20 = false /\
  is_night (Some 18) (Some 6) 20 = true /\
  is_night (Some 18) (Some 6) 10 = true.
Proof. repeat split; reflexivity. Qed.

(** C2.  For every hour and every window with both values present: when
    sunset < sunrise, night holds exactly when h >= sunset or h < sunrise;
    otherwise exactly when h >= sunset and h < sunrise. *)
Theorem is_night_window_formula (sunrise sunset h : Z) :
  (sunset < sunrise ->
     (is_night (Some sunrise) (Some sunset) h = true <->
      h >= sunset \/ h < sunrise)) /\
  (~ sunset < sunrise ->
     (is_night (Some sunrise) (Some sunset) h = true <->
      h >= sunset /\ h < sunrise)).
Proof.
  unfold is_night.
  destruct (Z.ltb_spec sunset sunrise) as [Hwrap | Hplain]; split;
    intro Hcase; lia.
Qed.

(** C5.  When the sunrise or the sunset value is unavailable, the night
    predicate answers true at every hour. *)
Theorem is_night_daylight_unavailable (sunrise_utc sunset_utc : option Z)
    (h : Z) :
  sunrise_utc = None \/ sunset_utc = None ->
  is_night sunrise_utc sunset_utc h = true.
Proof.
  intros [-> | ->]; [reflexivity |].
  destruct sunrise_utc; reflexivity.
Qed.

(** C9.  For a window with sunrise <= sunset, no hour is night. *)
Theorem is_night_plain_window_never (sunrise sunset h : Z) :
  sunrise <= sunset ->
  is_night (Some sunrise) (Some sunset) h = false.
Proof.
  intro Hle. unfold is_night.
  destruct (Z.ltb_spec sunset sunrise) as [Hwrap | _]; [lia |].
  rewrite andb_false_iff, Z.geb_leb, Z.leb_gt, Z.ltb_ge. lia.
Qed.

(** ** The overhead predicate *)

(** [is_iss_overhead] on the rounded differences: true exactly when both
    absolute differences, as binary64 computes them, are below 5; a rounded
    difference of exactly 5 on either axis makes it false. *)
Lemma is_iss_overhead_bounding_box (my_lat my_long iss_lat iss_long : float) :
  (is_iss_overhead my_lat my_long iss_lat iss_long = true <->
     (abs (my_lat - iss_lat) <? 5)%float = true /\
     (abs (my_long - iss_long) <? 5)%float = true) /\
  (abs (my_lat - iss_lat) = 5%float \/ abs (my_long - iss_long) = 5%float ->
   is_iss_overhead my_lat my_long iss_lat iss_long = false).
Proof.
  unfold is_iss_overhead. split.
  - destruct (abs (my_lat - iss_lat) <? 5)%float,
             (abs (my_long - iss_long) <? 5)%float; simpl;
      intuition congruence.
  - intros [-> | ->].
    + reflexivity.
    + destruct (abs (my_lat - iss_lat) <? 5)%float; reflexivity.
Qed.

(** The comparison is made on the rounded difference: 5 - 2^-60 rounds to
    5, so an observer at latitude 5 and a station at latitude 2^-60 are not
    within range. *)
Example is_iss_overhead_rounded_difference :
  (5 - 0x1p-60 = 5)%float /\
  is_iss_overhead 5 0 0x1p-60 0 = false.
Proof. split; reflexivity. Qed.

(** The script's two coordinates are the binary64 values of its decimal
    literals. *)
Example observer_coordinates :
  decimal_float "26.5458" = Some MY_LAT /\
  decimal_float "77.0197" = Some MY_LONG.
Proof. split; reflexivity. Qed.

(** The box is open: 4.5 degrees off on both axes is inside, exactly 5 on
    one axis is outside. *)
Example is_iss_overhead_inside_and_edge :
  is_iss_overhead 0 0 4.5 (-4.5) = true /\
  is_iss_overhead 0 0 5 0 = false /\
  is_iss_overhead 0 0 0 (-5) = false.
Proof. repeat split; reflexivity. Qed.

(** ** Rounded and exact distances

    The subtraction rounds to nearest, so it never takes a distance of 5 or
    more to a number below 5.  The lemmas follow the rounding of the
    Standard Library's specification of binary64 ([SpecFloat]) step by
    step: the mantissa is shifted to 53 digits, rounded, and shifted once
    more if the rounding carried. *)

Lemma five_sf_eq : Prim2SF 5 = five_sf.
Proof. reflexivity. Qed.

Lemma digits2_pos_bounds (m : positive) :
  2 ^ (Zpos (digits2_pos m) - 1) <= Zpos m < 2 ^ Zpos (digits2_pos m).
Proof.
  induction m as [p IH | p IH |]; cbn [digits2_pos].
  - rewrite Pos2Z.inj_succ.
    replace (Z.succ (Zpos (digits2_pos p)) - 1) with (Z.succ (Zpos (digits2_pos p) - 1)) by lia.
    rewrite !Z.pow_succ_r by lia. lia.
  - rewrite Pos2Z.inj_succ.
    replace (Z.succ (Zpos (digits2_pos p)) - 1) with (Z.succ (Zpos (digits2_pos p) - 1)) by lia.
    rewrite !Z.pow_succ_r by lia. lia.
  - simpl. lia.
Qed.

Lemma iter_pos_iter {A} (f : A -> A) (p : positive) (x : A) :
  iter_pos f p x = Pos.iter f x p.
Proof.
  revert x. induction p as [p IH | p IH |]; intro x; simpl.
  - rewrite !IH. now rewrite <- !Pos.iter_swap.
  - now rewrite !IH.
  - reflexivity.
Qed.

Lemma shr_m_shr_1 (mrs : shr_record) : shr_m (shr_1 mrs) = Z.quot2 (shr_m mrs).
Proof. destruct mrs as [[| [p | p |] | [p | p |]] r s]; reflexivity. Qed.

Lemma iter_quot2 (a : Z) (p : positive) :
  0 <= a -> Pos.iter Z.quot2 a p = a / 2 ^ Zpos p.
Proof.
  intro Ha. induction p as [| p IH] using Pos.peano_ind.
  - simpl. rewrite Zquot2_quot, Z.quot_div_nonneg by lia. reflexivity.
  - rewrite Pos.iter_succ, IH, Zquot2_quot, Z.quot_div_nonneg.
    + rewrite Z.div_div by (try apply Z.pow_pos_nonneg; lia).
      rewrite Pos2Z.inj_succ, Z.pow_succ_r by lia. f_equal. lia.
    + apply Z.div_pos; [lia | apply Z.pow_pos_nonneg; lia].
    + lia.
Qed.

Lemma shr_m_iter (mrs : shr_record) (p : positive) :
  0 <= shr_m mrs ->
  shr_m (iter_pos shr_1 p mrs) = shr_m mrs / 2 ^ Zpos p.
Proof.
  intro Hm. rewrite iter_pos_iter.
  rewrite (Pos.iter_swap_gen _ _ shr_m shr_1 Z.quot2 shr_m_shr_1).
  now apply iter_quot2.
Qed.

Lemma iter_xO (m k : positive) :
  Zpos (Pos.iter xO m k) = Zpos m * 2 ^ Zpos k.
Proof.
  induction k as [| k IH] using Pos.peano_ind.
  - simpl. lia.
  - rewrite Pos.iter_succ, Pos2Z.inj_xO, IH, Pos2Z.inj_succ, Z.pow_succ_r by lia.
    lia.
Qed.

Lemma fexp_eq (z : Z) : fexp prec emax z = Z.max (z - 53) (-1074).
Proof. reflexivity. Qed.

Lemma compare_cont_not_lt (m n : positive) :
  (n <= m)%positive ->
  match PosDef.Pos.compare_cont Eq m n with Lt => true | _ => false end = false.
Proof.
  intro Hle. change (PosDef.Pos.compare_cont Eq m n) with (Pos.compare m n).
  apply Pos.compare_ge_iff in Hle.
  destruct (m ?= n)%positive; try reflexivity. now destruct Hle.
Qed.

(** Comparison with five of a finite number with a positive sign. *)
Lemma not_below_five_finite (m : positive) (e : Z) :
  -50 < e \/ (e = -50 /\ 5629499534213120 <= Zpos m) ->
  SFltb (S754_finite false m e) five_sf = false.
Proof.
  intro H. unfold SFltb, SFcompare, five_sf.
  destruct (Z.compare_spec e (-50)) as [He | He | He].
  - apply compare_cont_not_lt. clear - H He. lia.
  - exfalso. clear - H He. lia.
  - reflexivity.
Qed.

Lemma pow2_pos (a : Z) : 0 <= a -> 0 < 2 ^ a.
Proof. intro Ha. apply Z.pow_pos_nonneg; lia. Qed.

Lemma five_mantissa : 5629499534213120 = 5 * 2 ^ 50.
Proof. reflexivity. Qed.

Lemma shr_spec (mrs : shr_record) (e n : Z) :
  0 <= n -> 0 <= shr_m mrs ->
  shr_m (fst (shr mrs e n)) = shr_m mrs / 2 ^ n /\ snd (shr mrs e n) = e + n.
Proof.
  intros Hn Hm. destruct n as [| p | p]; simpl.
  - rewrite Z.div_1_r. lia.
  - split; [now apply shr_m_iter | reflexivity].
  - lia.
Qed.

Lemma round_nearest_even_bounds (q : Z) (l : location) :
  q <= round_nearest_even q l <= q + 1.
Proof. destruct l as [| []]; simpl; try destruct (Z.even q); lia. Qed.

Lemma digits_between (p : positive) :
  2 ^ 52 <= Zpos p <= 2 ^ 53 -> 53 <= Zpos (digits2_pos p) <= 54.
Proof.
  intros [Hlo Hhi]. destruct (digits2_pos_bounds p) as [Hdlo Hdhi].
  set (d := Zpos (digits2_pos p)) in *. split.
  - assert (H : 52 < d); [| lia].
    apply (Z.pow_lt_mono_r_iff 2); lia.
  - assert (H : d - 1 <= 53); [| lia].
    apply (Z.pow_le_mono_r_iff 2); lia.
Qed.

Lemma magnitude_at_least_five (m : positive) (e : Z) :
  -1074 <= e ->
  5 * 2 ^ 1074 <= Zpos m * 2 ^ (e + 1074) ->
  3 <= Zpos (digits2_pos m) + e.
Proof.
  intros He Hval. destruct (digits2_pos_bounds m) as [_ Hhi].
  set (d := Zpos (digits2_pos m)) in *.
  destruct (Z.le_gt_cases 3 (d + e)) as [H | H]; [exact H | exfalso].
  assert (Hd : 0 < d) by (subst d; lia).
  assert (H1 : Zpos m * 2 ^ (e + 1074) < 2 ^ d * 2 ^ (e + 1074)).
  { apply Z.mul_lt_mono_pos_r; [apply pow2_pos; lia | exact Hhi]. }
  rewrite <- Z.pow_add_r in H1 by lia.
  assert (H2 : 2 ^ (d + (e + 1074)) <= 2 ^ (2 + 1074)).
  { apply Z.pow_le_mono_r; lia. }
  rewrite (Z.pow_add_r 2 2 1074) in H2 by lia.
  change (2 ^ 2) with 4 in H2.
  pose proof (pow2_pos 1074). lia.
Qed.

Lemma binary_round_aux_not_below_five (s : bool) (mz : positive) (ez : Z) :
  53 <= Zpos (digits2_pos mz) ->
  -1074 <= ez ->
  5 * 2 ^ 1074 <= Zpos mz * 2 ^ (ez + 1074) ->
  SFltb (SFabs (binary_round_aux prec emax s (Zpos mz) ez loc_Exact)) five_sf
  = false.
Proof.
  intros Hd Hez Hval.
  pose proof (magnitude_at_least_five mz ez Hez Hval) as Hmag.
  destruct (digits2_pos_bounds mz) as [Hlo Hhi].
  unfold binary_round_aux, shr_fexp. cbn [Zdigits2]. rewrite fexp_eq.
  set (dz := Zpos (digits2_pos mz)) in *.
  set (n := dz - 53).
  replace (Z.max (dz + ez - 53) (-1074) - ez) with n by (subst n; lia).
  assert (Hn : 0 <= n) by (subst n; lia).
  destruct (shr_spec (shr_record_of_loc (Zpos mz) loc_Exact) ez n Hn)
    as [Hq He']; [simpl; lia |].
  destruct (shr (shr_record_of_loc (Zpos mz) loc_Exact) ez n) as [mrs' e'].
  cbn [fst snd shr_record_of_loc shr_m] in Hq, He'.
  set (q := shr_m mrs') in *.
  assert (Hq52 : 2 ^ 52 <= q).
  { rewrite Hq. apply Z.div_le_lower_bound; [now apply pow2_pos |].
    rewrite <- Z.pow_add_r by lia.
    replace (n + 52) with (dz - 1) by (subst n; lia). exact Hlo. }
  assert (Hq53 : q < 2 ^ 53).
  { rewrite Hq. apply Z.div_lt_upper_bound; [now apply pow2_pos |].
    rewrite <- Z.pow_add_r by lia.
    replace (n + 53) with dz by (subst n; lia). exact Hhi. }
  assert (Hq5 : e' = -50 -> 5 * 2 ^ 50 <= q).
  { intro Hf. rewrite Hq.
    apply Z.div_le_lower_bound; [now apply pow2_pos |].
    apply (Z.mul_le_mono_pos_r _ _ (2 ^ (ez + 1074)));
      [apply pow2_pos; lia |].
    replace (2 ^ n * (5 * 2 ^ 50) * 2 ^ (ez + 1074))
      with (5 * (2 ^ (n + 50 + (ez + 1074)))).
    - replace (n + 50 + (ez + 1074)) with 1074 by lia. exact Hval.
    - rewrite !Z.pow_add_r by lia. ring. }
  clearbody q. clear Hq.
  pose proof (round_nearest_even_bounds q (loc_of_shr_record mrs')) as Hm1.
  set (m1 := round_nearest_even q (loc_of_shr_record mrs')) in *.
  clearbody m1.
  destruct m1 as [| p1 | p1]; try (exfalso; pose proof (pow2_pos 52); lia).
  cbn [Zdigits2]. rewrite fexp_eq.
  assert (Hd1 : 53 <= Zpos (digits2_pos p1) <= 54).
  { apply digits_between. split; [lia |]. lia. }
  set (d1 := Zpos (digits2_pos p1)) in *.
  set (n2 := d1 - 53).
  replace (Z.max (d1 + e' - 53) (-1074) - e') with n2 by (subst n2; lia).
  assert (Hn2 : 0 <= n2 <= 1) by (subst n2; lia).
  destruct (shr_spec (shr_record_of_loc (Zpos p1) loc_Exact) e' n2)
    as [Hm2 He2]; [lia | simpl; lia |].
  destruct (shr (shr_record_of_loc (Zpos p1) loc_Exact) e' n2) as [mrs2 e2].
  cbn [fst snd shr_record_of_loc shr_m] in Hm2, He2.
  assert (Hcase :
    0 < shr_m mrs2 /\
    (-50 < e2 \/ (e2 = -50 /\ 5 * 2 ^ 50 <= shr_m mrs2))).
  { assert (Hn2' : n2 = 0 \/ n2 = 1) by lia.
    clearbody n2. destruct Hn2' as [-> | ->].
    - rewrite Z.div_1_r in Hm2. rewrite Hm2. split; [lia |].
      destruct (Z.eq_dec e' (-50)) as [Heq | Hne].
      + right. split; [lia |]. specialize (Hq5 Heq). lia.
      + left. subst n. lia.
    - split; [| left; subst n; lia].
      rewrite Hm2. apply Z.div_str_pos. change (2 ^ 1) with 2.
      pose proof (pow2_pos 51). change (2 ^ 52) with (2 * 2 ^ 51) in Hq52.
      lia. }
  destruct Hcase as [Hpos Hge].
  destruct (shr_m mrs2) as [| m2 | m2]; try lia.
  destruct (e2 <=? emax - prec); [| reflexivity].
  apply not_below_five_finite. rewrite five_mantissa. exact Hge.
Qed.

Lemma digits2_pos_iter_xO (m k : positive) :
  Zpos (digits2_pos (Pos.iter xO m k)) = Zpos (digits2_pos m) + Zpos k.
Proof.
  induction k as [| k IH] using Pos.peano_ind.
  - simpl. lia.
  - rewrite Pos.iter_succ. cbn [digits2_pos]. rewrite Pos2Z.inj_succ, IH. lia.
Qed.

Lemma binary_round_not_below_five (s : bool) (m : positive) (e : Z) :
  -1074 <= e ->
  5 * 2 ^ 1074 <= Zpos m * 2 ^ (e + 1074) ->
  SFltb (SFabs (binary_round prec emax s m e)) five_sf = false.
Proof.
  intros He Hval.
  pose proof (magnitude_at_least_five m e He Hval) as Hmag.
  unfold binary_round, shl_align. rewrite fexp_eq.
  set (d := Zpos (digits2_pos m)) in *.
  replace (Z.max (d + e - 53) (-1074)) with (d + e - 53) by lia.
  destruct (d + e - 53 - e) as [| k | k] eqn:Hk.
  - apply binary_round_aux_not_below_five; fold d; lia.
  - apply binary_round_aux_not_below_five; fold d; lia.
  - apply binary_round_aux_not_below_five.
    + rewrite digits2_pos_iter_xO. fold d. lia.
    + lia.
    + rewrite iter_xO, <- Z.mul_assoc, <- Z.pow_add_r by lia.
      replace (Zpos k + (d + e - 53 + 1074)) with (e + 1074) by lia.
      exact Hval.
Qed.

Lemma bounded_canonical (m : positive) (e : Z) :
  bounded prec emax m e = true ->
  e = Z.max (Zpos (digits2_pos m) + e - 53) (-1074).
Proof.
  unfold bounded, canonical_mantissa. rewrite fexp_eq.
  intros [Hc _]%andb_true_iff. apply Z.eqb_eq in Hc. lia.
Qed.

Lemma valid_not_below_five (m : positive) (e : Z) :
  bounded prec emax m e = true ->
  5 * 2 ^ 1074 <= Zpos m * 2 ^ (e + 1074) ->
  SFltb (S754_finite false m e) five_sf = false.
Proof.
  intros Hb Hval. apply bounded_canonical in Hb.
  assert (He : -1074 <= e) by lia.
  pose proof (magnitude_at_least_five m e He Hval) as Hmag.
  apply not_below_five_finite.
  destruct (Z.eq_dec e (-50)) as [-> | Hne]; [right | left; lia].
  split; [reflexivity |]. rewrite five_mantissa.
  apply (Z.mul_le_mono_pos_r _ _ (2 ^ (-50 + 1074)));
    [apply pow2_pos; lia |].
  rewrite <- Z.mul_assoc, <- Z.pow_add_r by lia. exact Hval.
Qed.

Lemma shl_align_fst (m : positive) (e e' : Z) :
  e' <= e ->
  Zpos (fst (shl_align m e e')) = Zpos m * 2 ^ (e - e').
Proof.
  intro Hle. unfold shl_align.
  destruct (e' - e) as [| k | k] eqn:Hk; cbn [fst].
  - replace (e - e') with 0 by lia. lia.
  - lia.
  - rewrite iter_xO. f_equal. f_equal. lia.
Qed.

Lemma cond_Zopp_abs (s : bool) (m : positive) (t : Z) :
  0 <= t -> Z.abs (cond_Zopp s (Zpos m) * t) = Zpos m * t.
Proof.
  intro Ht. destruct s; cbn [cond_Zopp];
    rewrite ?Z.mul_opp_l, ?Z.abs_opp; apply Z.abs_eq;
    apply Z.mul_nonneg_nonneg; lia.
Qed.

Lemma SFsub_not_below_five (x y : spec_float) (ux uy : Z) :
  valid_binary x = true ->
  valid_binary y = true ->
  SFunits x = Some ux ->
  SFunits y = Some uy ->
  5 * 2 ^ 1074 <= Z.abs (ux - uy) ->
  SFltb (SFabs (SFsub prec emax x y)) five_sf = false.
Proof.
  intros Hvx Hvy Hux Huy Hfar.
  pose proof (pow2_pos 1074 ltac:(lia)) as Hunit.
  destruct x as [sx | sx | | sx mx ex], y as [sy | sy | | sy my ey];
    try discriminate; cbn [SFunits] in Hux, Huy;
    injection Hux as <-; injection Huy as <-.
  - exfalso. simpl in Hfar. lia.
  - cbn [SFsub SFabs]. apply valid_not_below_five; [exact Hvy |].
    rewrite <- (cond_Zopp_abs sy my (2 ^ (ey + 1074))) by (apply Z.lt_le_incl, pow2_pos;
      apply bounded_canonical in Hvy; lia).
    rewrite Z.sub_0_l, Z.abs_opp in Hfar. exact Hfar.
  - cbn [SFsub SFabs]. apply valid_not_below_five; [exact Hvx |].
    rewrite <- (cond_Zopp_abs sx mx (2 ^ (ex + 1074))) by (apply Z.lt_le_incl, pow2_pos;
      apply bounded_canonical in Hvx; lia).
    rewrite Z.sub_0_r in Hfar. exact Hfar.
  - cbn [valid_binary] in Hvx, Hvy.
    apply bounded_canonical in Hvx, Hvy.
    assert (Hex : -1074 <= ex) by lia.
    assert (Hey : -1074 <= ey) by lia.
    cbn [SFsub]. set (ez := Z.min ex ey).
    assert (Hez : -1074 <= ez) by (subst ez; lia).
    set (D := cond_Zopp sx (Zpos (fst (shl_align mx ex ez))) -
              cond_Zopp sy (Zpos (fst (shl_align my ey ez)))).
    assert (HD : cond_Zopp sx (Zpos mx) * 2 ^ (ex + 1074) -
                 cond_Zopp sy (Zpos my) * 2 ^ (ey + 1074) =
                 D * 2 ^ (ez + 1074)).
    { subst D. rewrite Z.mul_sub_distr_r.
      assert (Hshift : forall (s : bool) (m : positive) (e : Z),
                ez <= e ->
                cond_Zopp s (Zpos (fst (shl_align m e ez))) * 2 ^ (ez + 1074) =
                cond_Zopp s (Zpos m) * 2 ^ (e + 1074)).
      { intros s m e Hle. rewrite shl_align_fst by exact Hle.
        replace (e + 1074) with (e - ez + (ez + 1074)) by lia.
        rewrite (Z.pow_add_r 2 (e - ez)) by lia.
        destruct s; cbn [cond_Zopp]; ring. }
      rewrite !Hshift by (subst ez; lia). reflexivity. }
    rewrite HD in Hfar. rewrite Z.abs_mul in Hfar.
    rewrite (Z.abs_eq (2 ^ (ez + 1074))) in Hfar
      by (apply Z.lt_le_incl, pow2_pos; lia).
    clearbody D. unfold binary_normalize.
    destruct D as [| p | p].
    + exfalso. simpl in Hfar. lia.
    + apply binary_round_not_below_five; [exact Hez | exact Hfar].
    + apply binary_round_not_below_five; [exact Hez | exact Hfar].
Qed.


Lemma two_power_units (e : Z) :
  -1074 <= e ->
  ((2 # 1) ^ e * inject_Z (2 ^ 1074) == inject_Z (2 ^ (e + 1074)))%Q.
Proof.
  intro He. rewrite !Zpower_Qpower by lia.
  rewrite Qpower_plus by discriminate. reflexivity.
Qed.

Lemma SF2Q_units (x : spec_float) (v : Q) :
  valid_binary x = true ->
  SF2Q x = Some v ->
  exists u, SFunits x = Some u /\ (v * inject_Z (2 ^ 1074) == inject_Z u)%Q.
Proof.
  intros Hv Hx. destruct x as [s | s | | s m e]; try discriminate;
    injection Hx as <-.
  - exists 0. split; [reflexivity |]. ring.
  - cbn [valid_binary] in Hv. apply bounded_canonical in Hv.
    eexists. split; [reflexivity |].
    rewrite inject_Z_mult, <- two_power_units by lia. ring.
Qed.

Lemma SFunits_SF2Q (x : spec_float) (u : Z) :
  SFunits x = Some u -> exists v, SF2Q x = Some v.
Proof. destruct x; try discriminate; intros _; eexists; reflexivity. Qed.

(** Exact distances and distances in units compare alike with five. *)
Lemma exact_distance_units (vx vy : Q) (ux uy : Z) :
  (vx * inject_Z (2 ^ 1074) == inject_Z ux)%Q ->
  (vy * inject_Z (2 ^ 1074) == inject_Z uy)%Q ->
  (5 <= Qabs (vx - vy))%Q <-> 5 * 2 ^ 1074 <= Z.abs (ux - uy).
Proof.
  intros Hx Hy.
  assert (Hpos : (0 < inject_Z (2 ^ 1074))%Q).
  { change 0%Q with (inject_Z 0). rewrite <- Zlt_Qlt. now apply pow2_pos. }
  assert (Hscale : (Qabs (vx - vy) * inject_Z (2 ^ 1074)
                    == inject_Z (Z.abs (ux - uy)))%Q).
  { rewrite <- (Qabs_pos (inject_Z (2 ^ 1074))) at 1
      by now apply Qlt_le_weak.
    rewrite <- Qabs_Qmult.
    assert (Hd : ((vx - vy) * inject_Z (2 ^ 1074) == inject_Z (ux - uy))%Q).
    { unfold Z.sub. rewrite inject_Z_plus, inject_Z_opp, <- Hx, <- Hy. ring. }
    rewrite Hd. reflexivity. }
  rewrite Zle_Qle, inject_Z_mult, <- Hscale.
  split; intro H.
  - apply Qmult_le_compat_r; [exact H | now apply Qlt_le_weak].
  - apply Qmult_le_r in H; assumption.
Qed.

Lemma SFsub_below_five_finite (x y : spec_float) :
  SFltb (SFabs (SFsub prec emax x y)) five_sf = true ->
  exists ux uy, SFunits x = Some ux /\ SFunits y = Some uy.
Proof.
  destruct x as [sx | sx | | sx mx ex], y as [sy | sy | | sy my ey];
    try (intros _; eexists; eexists; split; reflexivity);
    try destruct sx; try destruct sy; discriminate.
Qed.

Lemma rounded_test_sound (a b : float) :
  (abs (a - b) <? 5)%float = true ->
  exists d, exact_distance a b = Some d /\ (d < 5)%Q.
Proof.
  rewrite ltb_spec, abs_spec, sub_spec, five_sf_eq. unfold SF64sub.
  intro Hnear.
  destruct (SFsub_below_five_finite _ _ Hnear) as (ux & uy & Hux & Huy).
  destruct (SFunits_SF2Q _ _ Hux) as [vx Hvx].
  destruct (SFunits_SF2Q _ _ Huy) as [vy Hvy].
  destruct (SF2Q_units _ _ (Prim2SF_valid a) Hvx) as (ux' & Hux' & Hsx).
  destruct (SF2Q_units _ _ (Prim2SF_valid b) Hvy) as (uy' & Huy' & Hsy).
  rewrite Hux in Hux'. injection Hux' as <-.
  rewrite Huy in Huy'. injection Huy' as <-.
  exists (Qabs (vx - vy)). unfold exact_distance, float_value.
  rewrite Hvx, Hvy. split; [reflexivity |].
  destruct (Qlt_le_dec (Qabs (vx - vy)) 5) as [Hlt | Hge]; [exact Hlt |].
  apply (exact_distance_units vx vy ux uy Hsx Hsy) in Hge.
  rewrite (SFsub_not_below_five _ _ ux uy (Prim2SF_valid a) (Prim2SF_valid b)
             Hux Huy Hge) in Hnear.
  discriminate.
Qed.

Lemma rounded_test_far (a b : float) (d : Q) :
  exact_distance a b = Some d -> (5 <= d)%Q ->
  (abs (a - b) <? 5)%float = false.
Proof.
  intros Hd Hfar.
  destruct (abs (a - b) <? 5)%float eqn:Htest; [| reflexivity].
  destruct (rounded_test_sound a b Htest) as (d' & Hd' & Hnear).
  rewrite Hd in Hd'. injection Hd' as <-.
  exfalso. apply (Qlt_not_le _ _ Hnear Hfar).
Qed.

(** C3, as the script has it.  [is_iss_overhead] is true exactly when the
    two differences, each rounded to binary64 as the script computes it,
    have absolute value below 5, and a rounded difference of exactly 5 on
    either axis makes it false.  Against the exact differences of the
    coordinates: whenever it is true both exact absolute differences are
    below 5, and whenever either exact absolute difference is 5 or more,
    exactly 5 included, it is false.  Only the remaining direction is lost
    to rounding: an exact difference just below 5 may round to 5. *)
Theorem is_iss_overhead_rounded_bounding_box
    (my_lat my_long iss_lat iss_long : float) :
  (is_iss_overhead my_lat my_long iss_lat iss_long = true <->
     (abs (my_lat - iss_lat) <? 5)%float = true /\
     (abs (my_long - iss_long) <? 5)%float = true) /\
  (abs (my_lat - iss_lat) = 5%float \/ abs (my_long - iss_long) = 5%float ->
   is_iss_overhead my_lat my_long iss_lat iss_long = false) /\
  (is_iss_overhead my_lat my_long iss_lat iss_long = true ->
   exists dlat dlong,
     exact_distance my_lat iss_lat = Some dlat /\
     exact_distance my_long iss_long = Some dlong /\
     (dlat < 5)%Q /\ (dlong < 5)%Q) /\
  (forall d,
     exact_distance my_lat iss_lat = Some d \/
     exact_distance my_long iss_long = Some d ->
     (5 <= d)%Q ->
     is_iss_overhead my_lat my_long iss_lat iss_long = false).
Proof.
  destruct (is_iss_overhead_bounding_box my_lat my_long iss_lat iss_long)
    as [Hiff Hedge].
  split; [exact Hiff |]. split; [exact Hedge |]. split.
  - intro Htrue. apply Hiff in Htrue as [Hlat Hlong].
    destruct (rounded_test_sound _ _ Hlat) as (dlat & Hdlat & Hnlat).
    destruct (rounded_test_sound _ _ Hlong) as (dlong & Hdlong & Hnlong).
    exists dlat, dlong. auto.
  - intros d Hd Hfar.
    apply not_true_is_false. intro Hres.
    apply Hiff in Hres as [Hlat Hlong].
    destruct Hd as [Hd | Hd].
    + now rewrite (rounded_test_far _ _ d Hd Hfar) in Hlat.
    + now rewrite (rounded_test_far _ _ d Hd Hfar) in Hlong.
Qed.

(** C3 as the specification words it, refuted: with the observer at
    latitude 5 and the station at latitude 2^-60, both on longitude 0, the
    exact absolute differences are 5 - 2^-60 and 0, both below 5, and yet
    [is_iss_overhead] answers false, because 5 - 2^-60 rounds to 5. *)
Lemma is_iss_overhead_exact_difference_below_five :
  (exists dlat dlong,
     exact_distance 5 0x1p-60 = Some dlat /\
     exact_distance 0 0 = Some dlong /\
     (dlat == 5 - 1 / (2 # 1) ^ 60)%Q /\ (dlong == 0)%Q /\
     (dlat < 5)%Q /\ (dlong < 5)%Q) /\
  is_iss_overhead 5 0 0x1p-60 0 = false.
Proof.
  split; [| vm_compute; reflexivity].
  eexists. eexists. split; [vm_compute; reflexivity |].
  split; [vm_compute; reflexivity |].
  repeat split; vm_compute; reflexivity.
Qed.

(** ** Traces and outcomes of composed computations *)

Lemma trace_pair {A} (t : list action) (r : result A) : trace (t, r) = t.
Proof. reflexivity. Qed.

Lemma outcome_pair {A} (t : list action) (r : result A) : outcome (t, r) = r.
Proof. reflexivity. Qed.

Lemma trace_bind {A B} (m : prog A) (k : A -> prog B) :
  trace (m >>= k) =
  (trace m ++ match outcome m with
              | Ok a => trace (k a)
              | Raise _ => []
              end)%list.
Proof.
  destruct m as [t [a | e]]; unfold bind, trace, outcome; simpl.
  - destruct (k a); reflexivity.
  - now rewrite app_nil_r.
Qed.

Lemma outcome_bind {A B} (m : prog A) (k : A -> prog B) :
  outcome (m >>= k) =
  match outcome m with
  | Ok a => outcome (k a)
  | Raise e => Raise e
  end.
Proof.
  destruct m as [t [a | e]]; unfold bind, outcome; simpl.
  - destruct (k a); reflexivity.
  - reflexivity.
Qed.

Lemma trace_try_except {A} (body handler : prog A) (catches : exn -> bool) :
  trace (try_except body catches handler) =
  (trace body ++ match outcome body with
                 | Ok _ => []
                 | Raise e => if catches e then trace handler else []
                 end)%list.
Proof.
  destruct body as [t [a | e]]; unfold try_except, trace, outcome; simpl.
  - now rewrite app_nil_r.
  - destruct (catches e); [destruct handler | rewrite app_nil_r]; reflexivity.
Qed.

Lemma send_count_app (t u : list action) :
  send_count (t ++ u) = (send_count t + send_count u)%nat.
Proof. unfold send_count. now rewrite filter_app, length_app. Qed.

Lemma monitoring_app (t u : list action) :
  monitoring (t ++ u) = (monitoring t ++ monitoring u)%list.
Proof. apply filter_app. Qed.

Lemma observation_not_notification (a : action) :
  is_observation a = true -> is_notification a = false.
Proof.
  unfold is_observation. intros [H _]%andb_true_iff.
  now apply negb_true_iff in H.
Qed.

Lemma observation_not_assignment (a : action) :
  is_observation a = true -> is_assignment a = false.
Proof.
  unfold is_observation. intros [_ H]%andb_true_iff.
  now apply negb_true_iff in H.
Qed.

Lemma quiet_filter (p : action -> bool) (t : list action) :
  (forall a, is_observation a = true -> p a = false) ->
  quiet t -> filter p t = [].
Proof.
  intros Hp. induction 1 as [| a t Ha _ IH]; simpl; [reflexivity |].
  now rewrite (Hp a Ha).
Qed.

Lemma quiet_monitoring (t : list action) : quiet t -> monitoring t = t.
Proof.
  induction 1 as [| a t Ha _ IH]; [reflexivity |].
  unfold monitoring in *. simpl.
  rewrite (observation_not_notification a Ha). simpl. now rewrite IH.
Qed.

Lemma quiet_first_index (p : action -> bool) (t u : list action) :
  (forall a, is_observation a = true -> p a = false) ->
  quiet t ->
  first_index p (t ++ u) =
  option_map (Nat.add (List.length t)) (first_index p u).
Proof.
  intros Hp. induction 1 as [| a t Ha _ IH]; simpl.
  - now destruct (first_index p u).
  - rewrite (Hp a Ha), IH. now destruct (first_index p u).
Qed.

Lemma observation_not_send (a : action) :
  is_observation a = true -> is_send a = false.
Proof. destruct a; cbv; congruence. Qed.

Lemma observation_not_set_true (a : action) :
  is_observation a = true -> is_set_true a = false.
Proof. destruct a as [| | | [] |]; cbv; congruence. Qed.

Lemma quiet_send_count (t : list action) : quiet t -> send_count t = 0%nat.
Proof.
  intro Hq. unfold send_count.
  now rewrite (quiet_filter is_send t observation_not_send Hq).
Qed.

Lemma send_count_monitoring (t : list action) :
  send_count (monitoring t) = 0%nat.
Proof.
  unfold send_count, monitoring.
  induction t as [| a t IH]; [reflexivity |].
  simpl. destruct (is_notification a) eqn:Ha; simpl; [exact IH |].
  destruct a; simpl in *; try exact IH. discriminate.
Qed.

Lemma quiet_no_assignment (t : list action) :
  quiet t -> filter is_assignment t = [].
Proof. apply quiet_filter, observation_not_assignment. Qed.

(** ** The fetchers only fetch *)

Create HintDb quiet_db.

Lemma quiet_nil : quiet [].
Proof. constructor. Qed.

Lemma quiet_app (t u : list action) : quiet t -> quiet u -> quiet (t ++ u).
Proof. intros Ht Hu. apply Forall_app. now split. Qed.

Lemma quiet_bind {A B} (m : prog A) (k : A -> prog B) :
  quiet (trace m) -> (forall a, quiet (trace (k a))) -> quiet (trace (m >>= k)).
Proof.
  intros Hm Hk. rewrite trace_bind. apply quiet_app; [assumption |].
  destruct (outcome m); [apply Hk | apply quiet_nil].
Qed.

Lemma quiet_try_except {A} (body handler : prog A) (catches : exn -> bool) :
  quiet (trace body) -> quiet (trace handler) ->
  quiet (trace (try_except body catches handler)).
Proof.
  intros Hb Hh. rewrite trace_try_except. apply quiet_app; [assumption |].
  destruct (outcome body) as [a | e]; [apply quiet_nil |].
  destruct (catches e); [assumption | apply quiet_nil].
Qed.

Lemma quiet_ret {A} (a : A) : quiet (trace (ret a)).
Proof. apply quiet_nil. Qed.

Lemma quiet_raise {A} (e : exn) : quiet (trace (@raise A e)).
Proof. apply quiet_nil. Qed.

Lemma quiet_emit (a : action) :
  is_observation a = true -> quiet (trace (emit a)).
Proof. intro Ha. repeat constructor. exact Ha. Qed.

Lemma quiet_getitem (d : json) (k : string) : quiet (trace (getitem d k)).
Proof.
  destruct d; try apply quiet_nil. simpl.
  destruct (dict_get k members); apply quiet_nil.
Qed.

Lemma quiet_split_method (v : json) (sep : ascii) :
  quiet (trace (split_method v sep)).
Proof. destruct v; apply quiet_nil. Qed.

Lemma quiet_list_item (pieces : list string) (i : nat) :
  quiet (trace (list_item pieces i)).
Proof. unfold list_item. destruct (nth_error pieces i); apply quiet_nil. Qed.

Lemma quiet_py_float (v : json) : quiet (trace (py_float v)).
Proof.
  destruct v as [| b | z | f | s | items | members]; simpl;
    try apply quiet_nil.
  - destruct (float_of_int z); apply quiet_nil.
  - destruct (float_of_str s); apply quiet_nil.
Qed.

Lemma quiet_py_int (s : string) : quiet (trace (py_int s)).
Proof. unfold py_int. destruct (int_of_str s); apply quiet_nil. Qed.

Lemma quiet_fetch_json (url : string) (params : list (string * json))
    (reply : http_reply) :
  quiet (trace (fetch_json url params reply)).
Proof.
  unfold fetch_json. apply quiet_bind.
  - now apply quiet_emit.
  - intros _. destruct reply; apply quiet_nil.
Qed.

#[local] Hint Resolve quiet_nil quiet_ret quiet_raise quiet_getitem
  quiet_split_method quiet_list_item quiet_py_float quiet_py_int
  quiet_fetch_json : quiet_db.

Ltac quiet_steps :=
  repeat first
    [ solve [auto with quiet_db]
    | apply quiet_emit; reflexivity
    | apply quiet_try_except
    | apply quiet_bind; [| intro] ].

Lemma quiet_get_iss_location (reply : http_reply) :
  quiet (trace (get_iss_location reply)).
Proof. unfold get_iss_location. quiet_steps. Qed.

Lemma quiet_hour_of (data : json) (field : string) :
  quiet (trace (hour_of data field)).
Proof. unfold hour_of. quiet_steps. Qed.

Lemma quiet_get_sunrise_sunset_times (latitude longitude : float)
    (reply : http_reply) :
  quiet (trace (get_sunrise_sunset_times latitude longitude reply)).
Proof.
  unfold get_sunrise_sunset_times. pose proof quiet_hour_of. quiet_steps.
Qed.

(** ** One iteration, case by case *)

Lemma send_iss_notification_email_runs (sender receiver password : option string)
    (iss_lat iss_long : float) (smtp : option exn) :
  send_iss_notification_email sender receiver password iss_lat iss_long smtp =
  (SendMail sender receiver password iss_lat iss_long ::
   match smtp with
   | None => [Print MsgEmailSent]
   | Some _ => [Print MsgEmailFailed; Print MsgCheckConfiguration]
   end,
   Ok tt).
Proof. destruct smtp; reflexivity. Qed.

Lemma loop_body_position_unavailable (cfg : config) (send_emails : bool)
    (env : tick_env) (flag : bool) :
  position_unavailable env ->
  loop_body cfg send_emails env flag =
  ((trace (get_iss_location (iss_reply env)) ++ [Print MsgWaiting; Sleep 60])%list,
   Ok flag).
Proof.
  unfold position_unavailable, loop_body, outcome, trace.
  destruct (get_iss_location (iss_reply env)) as [t r]. simpl.
  intros ->. reflexivity.
Qed.

Lemma loop_body_not_overhead (cfg : config) (send_emails : bool)
    (env : tick_env) (flag : bool) :
  not_overhead env ->
  exists pre, quiet pre /\
    loop_body cfg send_emails env flag =
    ((pre ++ [Print MsgNotOverhead; SetFlag false; Print MsgWaiting; Sleep 60])%list,
     Ok false).
Proof.
  unfold not_overhead, overhead_at, loop_body.
  pose proof (quiet_get_iss_location (iss_reply env)) as Hq.
  destruct (get_iss_location (iss_reply env))
    as [t [[[iss_lat |] [iss_long |]] | e]]; simpl in *; try discriminate.
  intros [= ->].
  exists (t ++ [Print (MsgCurrentLocation iss_lat iss_long)])%list. split.
  - apply quiet_app; [assumption | now repeat constructor].
  - now rewrite <- app_assoc.
Qed.

Lemma loop_body_overhead_day (cfg : config) (send_emails : bool)
    (env : tick_env) (flag : bool) :
  overhead_and_day env ->
  exists pre, quiet pre /\
    loop_body cfg send_emails env flag =
    ((pre ++ [Print MsgDaytime; SetFlag false; Print MsgWaiting; Sleep 60])%list,
     Ok false).
Proof.
  unfold overhead_and_day, overhead_at, night_at, loop_body.
  pose proof (quiet_get_iss_location (iss_reply env)) as Hq.
  pose proof (quiet_get_sunrise_sunset_times MY_LAT MY_LONG (sun_reply env))
    as Hq'.
  destruct (get_iss_location (iss_reply env))
    as [t [[[iss_lat |] [iss_long |]] | e]]; simpl in *;
    intros [Hover Hnight]; try discriminate.
  injection Hover as ->.
  destruct (get_sunrise_sunset_times MY_LAT MY_LONG (sun_reply env))
    as [t' [[sunrise_utc sunset_utc] | e]]; simpl in *; try discriminate.
  injection Hnight as ->.
  exists (t ++ [Print (MsgCurrentLocation iss_lat iss_long); Print MsgWithinRange]
            ++ t')%list.
  split.
  - repeat apply quiet_app; try assumption. now repeat constructor.
  - simpl. now rewrite <- !app_assoc.
Qed.

Lemma loop_body_overhead_night (cfg : config) (send_emails : bool)
    (env : tick_env) (flag : bool) :
  overhead_and_night env ->
  exists iss_lat iss_long pre, quiet pre /\
    loop_body cfg send_emails env flag =
    ((pre ++
      (if send_emails && negb flag
       then trace (send_iss_notification_email (SENDER_EMAIL cfg)
                     (RECEIVER_EMAIL cfg) (EMAIL_PASSWORD cfg)
                     iss_lat iss_long (smtp_error env)) ++ [SetFlag true]
       else []) ++
      [Print MsgWaiting; Sleep 60])%list,
     Ok (if send_emails && negb flag then true else flag)).
Proof.
  unfold overhead_and_night, overhead_at, night_at, loop_body.
  pose proof (quiet_get_iss_location (iss_reply env)) as Hq.
  pose proof (quiet_get_sunrise_sunset_times MY_LAT MY_LONG (sun_reply env))
    as Hq'.
  destruct (get_iss_location (iss_reply env))
    as [t [[[iss_lat |] [iss_long |]] | e]]; simpl in *;
    intros [Hover Hnight]; try discriminate.
  injection Hover as ->.
  destruct (get_sunrise_sunset_times MY_LAT MY_LONG (sun_reply env))
    as [t' [[sunrise_utc sunset_utc] | e]]; simpl in *; try discriminate.
  injection Hnight as ->.
  exists iss_lat, iss_long,
    (t ++ [Print (MsgCurrentLocation iss_lat iss_long); Print MsgWithinRange]
       ++ t' ++ [Print MsgDark; Print MsgLookUp])%list.
  split.
  - repeat apply quiet_app; try assumption; now repeat constructor.
  - rewrite send_iss_notification_email_runs.
    destruct (send_emails && negb flag); simpl;
      rewrite <- ?app_assoc; simpl; rewrite <- ?app_assoc; reflexivity.
Qed.

Lemma loop_body_overhead_night_summary (cfg : config) (send_emails : bool)
    (env : tick_env) (flag : bool) :
  overhead_and_night env ->
  send_count (trace (loop_body cfg send_emails env flag)) =
    (if send_emails && negb flag then 1 else 0)%nat /\
  outcome (loop_body cfg send_emails env flag) =
    Ok (if send_emails && negb flag then true else flag).
Proof.
  intro Hon.
  destruct (loop_body_overhead_night cfg send_emails env flag Hon)
    as (iss_lat & iss_long & pre & Hq & ->).
  unfold trace, outcome; simpl. split; [| reflexivity].
  rewrite !send_count_app, (quiet_send_count pre Hq).
  rewrite send_iss_notification_email_runs.
  destruct (send_emails && negb flag), (smtp_error env); reflexivity.
Qed.

Lemma loop_body_reset_summary (cfg : config) (send_emails : bool)
    (env : tick_env) (flag : bool) :
  not_overhead env \/ overhead_and_day env ->
  send_count (trace (loop_body cfg send_emails env flag)) = 0%nat /\
  outcome (loop_body cfg send_emails env flag) = Ok false.
Proof.
  intros [Hno | Hday].
  - destruct (loop_body_not_overhead cfg send_emails env flag Hno)
      as (pre & Hq & ->).
    unfold trace, outcome; simpl. split; [| reflexivity].
    now rewrite send_count_app, (quiet_send_count pre Hq).
  - destruct (loop_body_overhead_day cfg send_emails env flag Hday)
      as (pre & Hq & ->).
    unfold trace, outcome; simpl. split; [| reflexivity].
    now rewrite send_count_app, (quiet_send_count pre Hq).
Qed.

(** ** The loop *)

Lemma bind_ret_l {A B} (a : A) (k : A -> prog B) : (ret a >>= k) = k a.
Proof. unfold bind, ret. now destruct (k a). Qed.

Lemma bind_assoc {A B C} (m : prog A) (k : A -> prog B) (h : B -> prog C) :
  ((m >>= k) >>= h) = (m >>= fun a => k a >>= h).
Proof.
  destruct m as [t [a | e]]; simpl; [| reflexivity].
  destruct (k a) as [t' [b | e]]; simpl; [| reflexivity].
  destruct (h b) as [t'' r]. now rewrite app_assoc.
Qed.

Lemma loop_app (cfg : config) (send_emails : bool)
    (before after : list tick_env) (flag : bool) :
  loop cfg send_emails (before ++ after) flag =
  (loop cfg send_emails before flag >>= loop cfg send_emails after).
Proof.
  revert flag. induction before as [| env before IH]; intro flag.
  - change (loop cfg send_emails after flag =
            (ret flag >>= loop cfg send_emails after)).
    now rewrite bind_ret_l.
  - cbn [app loop]. rewrite bind_assoc.
    destruct (loop_body cfg send_emails env flag) as [t [f | e]];
      cbn [bind]; [| reflexivity].
    now rewrite IH.
Qed.

Lemma send_count_loop_cons (cfg : config) (send_emails : bool)
    (env : tick_env) (rest : list tick_env) (flag : bool) :
  send_count (trace (loop cfg send_emails (env :: rest) flag)) =
  (send_count (trace (loop_body cfg send_emails env flag)) +
   match outcome (loop_body cfg send_emails env flag) with
   | Ok f => send_count (trace (loop cfg send_emails rest f))
   | Raise _ => 0
   end)%nat.
Proof.
  simpl. rewrite trace_bind, send_count_app.
  now destruct (outcome (loop_body cfg send_emails env flag)).
Qed.

Lemma loop_overhead_night_interval (cfg : config) (send_emails : bool)
    (interval : list tick_env) (flag : bool) :
  Forall overhead_and_night interval ->
  send_count (trace (loop cfg send_emails interval flag)) =
    match interval with
    | [] => 0
    | _ :: _ => if send_emails && negb flag then 1 else 0
    end%nat.
Proof.
  intro Hall. revert flag.
  induction Hall as [| env rest Henv _ IH]; intro flag; [reflexivity |].
  rewrite send_count_loop_cons.
  destruct (loop_body_overhead_night_summary cfg send_emails env flag Henv)
    as [-> ->].
  rewrite IH.
  destruct send_emails, flag, rest; reflexivity.
Qed.

Lemma main_with_credentials (cfg : config) (envs : list tick_env) :
  credentials_present cfg ->
  main cfg envs =
  (([Print MsgStarted; Print (MsgMonitoring MY_LAT MY_LONG);
     Print (MsgNotificationsOn (SENDER_EMAIL cfg) (RECEIVER_EMAIL cfg))]
    ++ trace (loop cfg true envs false))%list,
   outcome (loop cfg true envs false)).
Proof.
  intros (Hs & Hr & Hp). unfold main. rewrite Hs, Hr, Hp. simpl.
  now destruct (loop cfg true envs false).
Qed.


(** What an iteration observes does not depend on the credentials, on
    [send_emails] or on the flag: its monitoring actions are exactly the
    actions of the same iteration run with notifications off, and it stops
    on an exception in the one exactly when it does in the other. *)
Lemma loop_body_monitoring (cfg cfg' : config) (send_emails : bool)
    (env : tick_env) (flag flag' : bool) :
  monitoring (trace (loop_body cfg send_emails env flag)) =
    trace (loop_body cfg' false env flag') /\
  raised (outcome (loop_body cfg send_emails env flag)) =
    raised (outcome (loop_body cfg' false env flag')).
Proof.
  unfold loop_body.
  pose proof (quiet_monitoring _ (quiet_get_iss_location (iss_reply env)))
    as Ht.
  pose proof (quiet_monitoring _
                (quiet_get_sunrise_sunset_times MY_LAT MY_LONG (sun_reply env)))
    as Ht'.
  unfold monitoring in *.
  destruct (get_iss_location (iss_reply env))
    as [t [[[iss_lat |] [iss_long |]] | e]]; simpl in *;
    rewrite ?filter_app, ?Ht; try (split; reflexivity).
  destruct (is_iss_overhead MY_LAT MY_LONG iss_lat iss_long); simpl;
    rewrite ?filter_app, ?Ht; try (split; reflexivity).
  destruct (get_sunrise_sunset_times MY_LAT MY_LONG (sun_reply env))
    as [t' [[sunrise_utc sunset_utc] | e]]; simpl in *;
    rewrite ?filter_app, ?Ht; simpl; rewrite ?Ht'; try (split; reflexivity).
  destruct (is_night sunrise_utc sunset_utc (utc_hour env)); simpl;
    rewrite ?filter_app, ?Ht; simpl; rewrite ?filter_app, ?Ht';
    try (split; reflexivity).
  destruct (send_emails && negb flag); simpl;
    rewrite ?filter_app, ?Ht; simpl; rewrite ?filter_app, ?Ht';
    try (split; reflexivity).
  destruct (smtp_error env); simpl;
    rewrite ?filter_app, ?Ht; simpl; rewrite ?filter_app, ?Ht';
    split; reflexivity.
Qed.

Lemma loop_monitoring (cfg cfg' : config) (send_emails : bool)
    (envs : list tick_env) (flag flag' : bool) :
  monitoring (trace (loop cfg send_emails envs flag)) =
    trace (loop cfg' false envs flag') /\
  raised (outcome (loop cfg send_emails envs flag)) =
    raised (outcome (loop cfg' false envs flag')).
Proof.
  revert flag flag'.
  induction envs as [| env rest IH]; intros flag flag'; [now split |].
  cbn [loop]. rewrite !trace_bind, !outcome_bind, monitoring_app.
  destruct (loop_body_monitoring cfg cfg' send_emails env flag flag')
    as [-> Hraised].
  destruct (outcome (loop_body cfg send_emails env flag)) as [f | e],
           (outcome (loop_body cfg' false env flag')) as [f' | e'];
    simpl in Hraised; try discriminate.
  - destruct (IH f f') as [-> ->]. now split.
  - injection Hraised as ->. now split.
Qed.

(** ** What the fetchers catch *)

Lemma get_iss_location_request_failure (reply : http_reply) :
  request_fails reply ->
  get_iss_location reply =
  ([HttpGet ISS_API_URL []; Print MsgIssFetchError], Ok (None, None)).
Proof. intros [-> | [-> | ->]]; reflexivity. Qed.

Lemma get_sunrise_sunset_times_request_failure (latitude longitude : float)
    (reply : http_reply) :
  request_fails reply ->
  outcome (get_sunrise_sunset_times latitude longitude reply) =
  Ok (None, None).
Proof. intros [-> | [-> | ->]]; reflexivity. Qed.

(** A failed daylight request therefore counts as night at any hour. *)
Lemma night_at_request_failure (env : tick_env) :
  request_fails (sun_reply env) -> night_at env = Some true.
Proof.
  intro Hfail. unfold night_at.
  now rewrite (get_sunrise_sunset_times_request_failure _ _ _ Hfail).
Qed.

(** An exception of any other class passes through the handler: a decoded
    document without the [iss_position] member ends the fetch with
    [KeyError], and with it the iteration and the loop. *)
Lemma get_iss_location_missing_position (members : list (string * json)) :
  dict_get "iss_position" members = None ->
  get_iss_location (JsonOk (JObj members)) =
  ([HttpGet ISS_API_URL []], Raise KeyError).
Proof.
  intro Hnone. unfold get_iss_location, fetch_json, getitem.
  simpl. rewrite Hnone. reflexivity.
Qed.

Lemma loop_stops_on_exception (cfg : config) (send_emails : bool)
    (env : tick_env) (rest : list tick_env) (flag : bool) (e : exn) :
  outcome (get_iss_location (iss_reply env)) = Raise e ->
  loop cfg send_emails (env :: rest) flag =
  (trace (get_iss_location (iss_reply env)), Raise e).
Proof.
  cbn [loop]. unfold loop_body, outcome, trace.
  destruct (get_iss_location (iss_reply env)) as [t r]. simpl.
  intros ->. reflexivity.
Qed.

(** ** The notified flag *)

(** C4.  With credentials present and the flag initially false, the
    iterations overhead+night, overhead+night, overhead+day, overhead+night
    make exactly two sends.  In general the iterations of an unbroken
    overhead-and-night interval, wherever it occurs in a run, add at most one
    send to the trace; and an iteration that finds the station not overhead,
    or overhead by day, leaves the flag false. *)
Theorem one_send_per_overhead_night_interval (cfg : config)
    (e1 e2 e3 e4 : tick_env) :
  credentials_present cfg ->
  overhead_and_night e1 -> overhead_and_night e2 ->
  overhead_and_day e3 -> overhead_and_night e4 ->
  send_count (trace (main cfg [e1; e2; e3; e4])) = 2%nat /\
  (forall send_emails flag before interval,
     Forall overhead_and_night interval ->
     exists added,
       trace (loop cfg send_emails (before ++ interval) flag) =
         (trace (loop cfg send_emails before flag) ++ added)%list /\
       (send_count added <= 1)%nat) /\
  (forall send_emails flag env,
     not_overhead env \/ overhead_and_day env ->
     outcome (loop_body cfg send_emails env flag) = Ok false).
Proof.
  intros Hcred H1 H2 H3 H4. split; [| split].
  - rewrite (main_with_credentials cfg _ Hcred), trace_pair, send_count_app.
    rewrite send_count_loop_cons.
    destruct (loop_body_overhead_night_summary cfg true e1 false H1) as [-> ->].
    cbn [andb negb]. rewrite send_count_loop_cons.
    destruct (loop_body_overhead_night_summary cfg true e2 true H2) as [-> ->].
    cbn [andb negb]. rewrite send_count_loop_cons.
    destruct (loop_body_reset_summary cfg true e3 true (or_intror H3))
      as [-> ->].
    rewrite send_count_loop_cons.
    destruct (loop_body_overhead_night_summary cfg true e4 false H4) as [-> ->].
    reflexivity.
  - intros send_emails flag before interval Hall.
    rewrite loop_app, trace_bind.
    destruct (outcome (loop cfg send_emails before flag)) as [f | e].
    + eexists. split; [reflexivity |].
      rewrite (loop_overhead_night_interval cfg send_emails interval f Hall).
      destruct interval, (send_emails && negb f); auto.
    + exists []. split; [reflexivity | auto].
  - intros send_emails flag env Hreset.
    apply (loop_body_reset_summary cfg send_emails env flag Hreset).
Qed.

(** C10.  An iteration whose position fetch comes back unavailable assigns
    nothing to the flag, so over any run of such iterations the flag keeps
    the value it had, true included; whereas one iteration that finds the
    station not overhead, or overhead by day, turns a true flag false. *)
Theorem flag_kept_while_position_unavailable (cfg : config)
    (send_emails : bool) (envs : list tick_env) (flag : bool) :
  Forall position_unavailable envs ->
  outcome (loop cfg send_emails envs flag) = Ok flag /\
  filter is_assignment (trace (loop cfg send_emails envs flag)) = [] /\
  (forall env,
     not_overhead env \/ overhead_and_day env ->
     outcome (loop_body cfg send_emails env true) = Ok false).
Proof.
  intro Hall.
  assert (Hkept :
            outcome (loop cfg send_emails envs flag) = Ok flag /\
            filter is_assignment (trace (loop cfg send_emails envs flag)) = []).
  { induction Hall as [| env rest Henv _ [IHo IHt]]; [now split |].
    cbn [loop]. rewrite outcome_bind, trace_bind.
    rewrite (loop_body_position_unavailable cfg send_emails env flag Henv).
    rewrite trace_pair, outcome_pair. split; [exact IHo |].
    rewrite !filter_app, IHt,
      (quiet_no_assignment _ (quiet_get_iss_location (iss_reply env))).
    reflexivity. }
  destruct Hkept as [Hflag Hnone]. repeat split; try assumption.
  intros env Hreset.
  apply (loop_body_reset_summary cfg send_emails env true Hreset).
Qed.

(** ** Credentials *)


(** ** A failing send *)

(** C8, as the script has it.  The notifier catches every exception and
    returns; the flag is assigned after the call.  So an overhead-and-night
    iteration whose SMTP session fails still ends normally with the flag
    true, having attempted one send, reported the failure and only then
    assigned the flag; and the next overhead-and-night iteration, finding
    the flag true, attempts no send. *)
Theorem failed_send_still_sets_flag (cfg : config) (env next : tick_env)
    (e : exn) :
  overhead_and_night env ->
  smtp_error env = Some e ->
  overhead_and_night next ->
  let run := loop_body cfg true env false in
  outcome run = Ok true /\
  send_count (trace run) = 1%nat /\
  In (Print MsgEmailFailed) (trace run) /\
  precedes is_send is_set_true (trace run) = true /\
  precedes is_set_true is_send (trace run) = false /\
  send_count (trace (loop_body cfg true next true)) = 0%nat /\
  outcome (loop_body cfg true next true) = Ok true.
Proof.
  intros Hon Hsmtp Hnext run.
  destruct (loop_body_overhead_night_summary cfg true next true Hnext)
    as [Hcount Hflag].
  destruct (loop_body_overhead_night_summary cfg true env false Hon)
    as [Hcount' Hflag'].
  destruct (loop_body_overhead_night cfg true env false Hon)
    as (iss_lat & iss_long & pre & Hq & Hrun).
  rewrite send_iss_notification_email_runs, Hsmtp in Hrun.
  cbn [andb negb trace fst app] in Hrun.
  repeat split; try assumption.
  - subst run. rewrite Hrun, trace_pair.
    apply in_or_app. right. simpl. auto.
  - subst run. rewrite Hrun, trace_pair. unfold precedes.
    rewrite !quiet_first_index
      by (assumption || apply observation_not_send
          || apply observation_not_set_true).
    cbn [first_index is_send is_set_true option_map].
    apply Nat.ltb_lt. lia.
  - subst run. rewrite Hrun, trace_pair. unfold precedes.
    rewrite !quiet_first_index
      by (assumption || apply observation_not_send
          || apply observation_not_set_true).
    cbn [first_index is_send is_set_true option_map].
    apply Nat.ltb_ge. lia.
Qed.

(** * Further properties of the script *)

(** ** Splitting a timestamp *)

Lemma split_cons_head (sep : ascii) (s : string) :
  exists piece pieces, split sep s = piece :: pieces.
Proof.
  induction s as [| c rest (piece & pieces & IH)]; simpl.
  - eauto.
  - destruct (Ascii.eqb c sep); [eauto |]. rewrite IH. eauto.
Qed.

Lemma split_before_separator (sep : ascii) (a b : string) :
  occurs_in sep a = false ->
  split sep (a ++ String sep b) = a :: split sep b.
Proof.
  induction a as [| c a IH]; simpl.
  - intros _. now rewrite Ascii.eqb_refl.
  - intros [Hc Ha]%orb_false_iff. rewrite Hc, (IH Ha). reflexivity.
Qed.

(** The first piece keeps everything up to a separator of another kind. *)
Lemma split_keeps_prefix (sep other : ascii) (a b : string) :
  occurs_in sep a = false ->
  Ascii.eqb other sep = false ->
  exists tail pieces,
    split sep (a ++ String other b) = (a ++ String other tail) :: pieces.
Proof.
  intros Ha Hother. induction a as [| c a IH]; simpl.
  - rewrite Hother. destruct (split_cons_head sep b) as (piece & pieces & ->).
    eauto.
  - simpl in Ha. apply orb_false_iff in Ha as [Hc Ha]. rewrite Hc.
    destruct (IH Ha) as (tail & pieces & ->). eauto.
Qed.

(** ** Reading a decoded document *)

Lemma parses_ret {A} (P : A -> Prop) (a : A) : P a -> parses P (ret a).
Proof. intro Ha. split; [reflexivity | exact Ha]. Qed.

Lemma parses_bind {A B} (Q : A -> Prop) (P : B -> Prop) (m : prog A)
    (k : A -> prog B) :
  parses Q m -> (forall a, Q a -> parses P (k a)) -> parses P (m >>= k).
Proof.
  intros [Ht Ho] Hk. unfold parses. rewrite trace_bind, outcome_bind, Ht.
  destruct (outcome m) as [a | e]; [| now split].
  destruct (Hk a Ho) as [Ht' Ho']. now split.
Qed.

Lemma parses_weaken {A} (P Q : A -> Prop) (p : prog A) :
  (forall a, P a -> Q a) -> parses P p -> parses Q p.
Proof.
  intros HPQ [Ht Ho]. split; [exact Ht |].
  destruct (outcome p); auto.
Qed.

Lemma parses_getitem (d : json) (k : string) :
  parses (fun _ => True) (getitem d k).
Proof.
  destruct d; try (split; reflexivity). simpl.
  destruct (dict_get k members); split; reflexivity || exact I.
Qed.

Lemma parses_split_method (v : json) (sep : ascii) :
  parses (fun _ => True) (split_method v sep).
Proof. destruct v; split; reflexivity || exact I. Qed.

Lemma parses_list_item (pieces : list string) (i : nat) :
  parses (fun _ => True) (list_item pieces i).
Proof.
  unfold list_item. destruct (nth_error pieces i); split;
    reflexivity || exact I.
Qed.

Lemma parses_py_float (v : json) : parses (fun _ => True) (py_float v).
Proof.
  destruct v as [| b | z | f | s | items | members]; simpl;
    try (split; reflexivity || exact I).
  - destruct (float_of_int z); split; reflexivity || exact I.
  - destruct (float_of_str s); split; reflexivity || exact I.
Qed.

Lemma parses_py_int (s : string) : parses (fun _ => True) (py_int s).
Proof.
  unfold py_int. destruct (int_of_str s); split; reflexivity || exact I.
Qed.

Lemma parses_hour_of (data : json) (field : string) :
  parses (fun _ => True) (hour_of data field).
Proof.
  unfold hour_of.
  repeat first
    [ apply parses_py_int
    | eapply parses_bind;
      [ first [ apply parses_getitem | apply parses_split_method
              | apply parses_list_item ]
      | intros ? _ ] ].
Qed.

(** A fetcher is a request followed by a reading of the document, under a
    handler for [RequestException]: it performs the request, and then
    either the handler runs (the request failed inside [requests]) or the
    reading decides the outcome. *)
Lemma fetch_then_parse {A} (P : A -> Prop) (url : string)
    (params : list (string * json)) (reply : http_reply)
    (read : json -> prog A) (handler : prog A) :
  (forall data, parses P (read data)) ->
  try_except (fetch_json url params reply >>= read) is_RequestException handler =
  match reply with
  | JsonOk data => ([HttpGet url params], outcome (read data))
  | JsonRaises e =>
      if is_RequestException e
      then (HttpGet url params :: trace handler, outcome handler)
      else ([HttpGet url params], Raise e)
  | GetRaises | StatusRaises =>
      (HttpGet url params :: trace handler, outcome handler)
  end.
Proof.
  intro Hread. destruct reply as [| | e | data]; simpl.
  - now destruct handler.
  - now destruct handler.
  - destruct (is_RequestException e); [now destruct handler | reflexivity].
  - destruct (Hread data) as [Ht Ho]. unfold trace, outcome in *.
    destruct (read data) as [t [a | e]]; simpl in *; subst t;
      [reflexivity |].
    now rewrite Ho.
Qed.

Lemma get_iss_location_cases (reply : http_reply) :
  (request_fails reply /\
   get_iss_location reply =
     ([HttpGet ISS_API_URL []; Print MsgIssFetchError], Ok (None, None))) \/
  (~ request_fails reply /\
   ((exists data x y,
       reply = JsonOk data /\
       get_iss_location reply = ([HttpGet ISS_API_URL []], Ok (Some x, Some y))) \/
    (exists e,
       is_RequestException e = false /\
       get_iss_location reply = ([HttpGet ISS_API_URL []], Raise e)))).
Proof.
  unfold get_iss_location.
  erewrite (fetch_then_parse (fun p => exists x y, p = (Some x, Some y))).
  - destruct reply as [| | e | data].
    + left. split; [left; reflexivity | reflexivity].
    + left. split; [right; left; reflexivity | reflexivity].
    + destruct (is_RequestException e) eqn:He.
      * left. split; [| reflexivity].
        destruct e; try discriminate. right; right; reflexivity.
      * right. split.
        { intros [H | [H | H]]; try discriminate.
          injection H as ->. discriminate. }
        right. exists e. split; [exact He | reflexivity].
    + right. split; [intros [H | [H | H]]; discriminate |].
      match goal with |- context [outcome ?run] =>
        assert (Hp : parses (fun r => exists x y, r = (Some x, Some y)) run)
      end.
      { repeat first
          [ eapply parses_bind;
            [ first [ apply parses_getitem | apply parses_py_float ]
            | intros ? _ ]
          | apply parses_ret; eauto ]. }
      destruct Hp as [_ Ho].
      match goal with |- context [outcome ?run] =>
        destruct (outcome run) as [a | e]
      end.
      * destruct Ho as (x & y & ->). left. eauto.
      * right. eauto.
  - intro data.
    repeat first
      [ eapply parses_bind;
        [ first [ apply parses_getitem | apply parses_py_float ]
        | intros ? _ ]
      | apply parses_ret; eauto ].
Qed.

Lemma get_sunrise_sunset_times_cases (latitude longitude : float)
    (reply : http_reply) :
  let request :=
    HttpGet SUNRISE_SUNSET_API_URL
      [("lat", JFloat latitude); ("lng", JFloat longitude);
       ("formatted", JInt 0)] in
  (request_fails reply /\
   get_sunrise_sunset_times latitude longitude reply =
     ([request; Print MsgSunFetchError], Ok (None, None))) \/
  (~ request_fails reply /\
   ((exists data sunrise sunset,
       reply = JsonOk data /\
       get_sunrise_sunset_times latitude longitude reply =
         ([request], Ok (Some sunrise, Some sunset))) \/
    (exists e,
       is_RequestException e = false /\
       get_sunrise_sunset_times latitude longitude reply =
         ([request], Raise e)))).
Proof.
  intro request. subst request. unfold get_sunrise_sunset_times.
  erewrite (fetch_then_parse (fun p => exists x y, p = (Some x, Some y))).
  - destruct reply as [| | e | data].
    + left. split; [left; reflexivity | reflexivity].
    + left. split; [right; left; reflexivity | reflexivity].
    + destruct (is_RequestException e) eqn:He.
      * left. split; [| reflexivity].
        destruct e; try discriminate. right; right; reflexivity.
      * right. split.
        { intros [H | [H | H]]; try discriminate.
          injection H as ->. discriminate. }
        right. exists e. split; [exact He | reflexivity].
    + right. split; [intros [H | [H | H]]; discriminate |].
      match goal with |- context [outcome ?run] =>
        assert (Hp : parses (fun r => exists x y, r = (Some x, Some y)) run)
      end.
      { repeat first
          [ eapply parses_bind; [apply parses_hour_of | intros ? _]
          | apply parses_ret; eauto ]. }
      destruct Hp as [_ Ho].
      match goal with |- context [outcome ?run] =>
        destruct (outcome run) as [a | e]
      end.
      * destruct Ho as (x & y & ->). left. eauto.
      * right. eauto.
  - intro data.
    repeat first
      [ eapply parses_bind; [apply parses_hour_of | intros ? _]
      | apply parses_ret; eauto ].
Qed.

(** ** One iteration, all cases at once *)

#[local] Arguments is_night : simpl never.
#[local] Arguments is_iss_overhead : simpl never.

(** Splits an iteration along the two fetchers' cases and rewrites the
    iteration with what they return. *)
Ltac iteration_cases env :=
  let Hiss := fresh "Hiss" in
  let Hsun := fresh "Hsun" in
  destruct (get_iss_location_cases (iss_reply env))
    as [[? Hiss] | [? [(? & ? & ? & ? & Hiss) | (? & ? & Hiss)]]];
  destruct (get_sunrise_sunset_times_cases MY_LAT MY_LONG (sun_reply env))
    as [[? Hsun] | [? [(? & ? & ? & ? & Hsun) | (? & ? & Hsun)]]];
  cbv zeta in Hsun;
  unfold loop_body, overhead_at, night_at, outcome, trace;
  rewrite ?Hiss; cbn [bind fst snd ret emit app];
  repeat match goal with
    | |- context [is_iss_overhead ?a ?b ?c ?d] =>
        destruct (is_iss_overhead a b c d)
    end;
  rewrite ?Hsun; cbn [bind fst snd ret emit app];
  repeat match goal with
    | |- context [is_night ?a ?b ?c] => destruct (is_night a b c)
    end;
  cbn [bind fst snd ret emit app].

(** X11.  An iteration attempts a send exactly when the position fetch
    returned both coordinates, they are within range, the night predicate
    holds, notifications are enabled and the flag is false; it then attempts
    exactly one, addressed with the configured credentials and carrying the
    coordinates just fetched.  In every other case it attempts none. *)
Theorem loop_body_sends (cfg : config) (send_emails : bool) (env : tick_env)
    (flag : bool) :
  filter is_send (trace (loop_body cfg send_emails env flag)) =
  match outcome (get_iss_location (iss_reply env)), night_at env with
  | Ok (Some iss_lat, Some iss_long), Some true =>
      if is_iss_overhead MY_LAT MY_LONG iss_lat iss_long
         && send_emails && negb flag
      then [SendMail (SENDER_EMAIL cfg) (RECEIVER_EMAIL cfg)
              (EMAIL_PASSWORD cfg) iss_lat iss_long]
      else []
  | _, _ => []
  end.
Proof.
  iteration_cases env; try reflexivity.
  all: rewrite send_iss_notification_email_runs.
  all: destruct send_emails, flag, (smtp_error env); reflexivity.
Qed.

(** X8.  An iteration asks the daylight service exactly once, for the
    observer's coordinates and with [formatted=0], when the station is within
    range, and not at all when it is out of range or its position could not
    be fetched. *)
Theorem loop_body_daylight_requests (cfg : config) (send_emails : bool)
    (env : tick_env) (flag : bool) :
  filter (is_request_to SUNRISE_SUNSET_API_URL)
    (trace (loop_body cfg send_emails env flag)) =
  match overhead_at env with
  | Some true =>
      [HttpGet SUNRISE_SUNSET_API_URL
         [("lat", JFloat MY_LAT); ("lng", JFloat MY_LONG);
          ("formatted", JInt 0)]]
  | _ => []
  end.
Proof.
  iteration_cases env; try reflexivity.
  all: rewrite send_iss_notification_email_runs.
  all: destruct send_emails, flag, (smtp_error env); reflexivity.
Qed.

(** Sends on the left, resets on the right: whatever the iteration meets,
    a send needs the flag to be false and leaves it true, and only a reset
    makes it false again. *)
Lemma loop_body_send_budget (cfg : config) (send_emails : bool)
    (env : tick_env) (flag : bool) :
  (send_count (trace (loop_body cfg send_emails env flag)) +
   match outcome (loop_body cfg send_emails env flag) with
   | Ok true | Raise _ => 0
   | Ok false => 1
   end <=
   (if flag then 0 else 1) +
   reset_count (trace (loop_body cfg send_emails env flag)))%nat.
Proof.
  unfold send_count, reset_count.
  iteration_cases env; try (destruct flag; simpl; lia).
  all: rewrite send_iss_notification_email_runs.
  all: destruct send_emails, flag, (smtp_error env); simpl; lia.
Qed.

Lemma loop_body_completes (cfg : config) (send_emails : bool)
    (env : tick_env) (flag : bool) :
  match outcome (loop_body cfg send_emails env flag) with
  | Ok _ =>
      filter is_sleep (trace (loop_body cfg send_emails env flag)) = [Sleep 60]
  | Raise _ =>
      filter is_sleep (trace (loop_body cfg send_emails env flag)) = []
  end /\
  filter (is_request_to ISS_API_URL)
    (trace (loop_body cfg send_emails env flag)) = [HttpGet ISS_API_URL []].
Proof.
  iteration_cases env; try (split; reflexivity).
  all: rewrite send_iss_notification_email_runs.
  all: destruct send_emails, flag, (smtp_error env); split; reflexivity.
Qed.

Lemma loop_body_raises (cfg : config) (send_emails : bool) (env : tick_env)
    (flag : bool) (e : exn) :
  outcome (loop_body cfg send_emails env flag) = Raise e ->
  is_RequestException e = false /\
  send_count (trace (loop_body cfg send_emails env flag)) = 0%nat /\
  (outcome (get_iss_location (iss_reply env)) = Raise e \/
   overhead_at env = Some true /\
   outcome (get_sunrise_sunset_times MY_LAT MY_LONG (sun_reply env)) = Raise e).
Proof.
  unfold send_count.
  iteration_cases env; try discriminate.
  all: try (intros [= <-]; repeat split; auto).
  all: rewrite send_iss_notification_email_runs.
  all: destruct send_emails, flag, (smtp_error env); discriminate.
Qed.

Lemma loop_body_sets_flag (cfg : config) (send_emails : bool)
    (env : tick_env) (flag : bool) :
  outcome (loop_body cfg send_emails env flag) = Ok true ->
  flag = true \/
  send_emails = true /\
  send_count (trace (loop_body cfg send_emails env flag)) = 1%nat.
Proof.
  unfold send_count.
  iteration_cases env; try discriminate; try (intros [= ->]; auto).
  all: rewrite send_iss_notification_email_runs.
  all: destruct send_emails, flag, (smtp_error env); simpl;
    intros [=]; auto.
Qed.

(** ** Whole runs *)

Lemma reset_count_app (t u : list action) :
  reset_count (t ++ u) = (reset_count t + reset_count u)%nat.
Proof. unfold reset_count. now rewrite filter_app, length_app. Qed.

Lemma loop_send_budget_aux (cfg : config) (send_emails : bool)
    (envs : list tick_env) (flag : bool) :
  (send_count (trace (loop cfg send_emails envs flag)) +
   match outcome (loop cfg send_emails envs flag) with
   | Ok true | Raise _ => 0
   | Ok false => 1
   end <=
   (if flag then 0 else 1) +
   reset_count (trace (loop cfg send_emails envs flag)))%nat.
Proof.
  revert flag. induction envs as [| env rest IH]; intro flag.
  - destruct flag; simpl; lia.
  - cbn [loop].
    rewrite trace_bind, outcome_bind, send_count_app, reset_count_app.
    pose proof (loop_body_send_budget cfg send_emails env flag) as Hbody.
    destruct (outcome (loop_body cfg send_emails env flag)) as [f | e].
    + specialize (IH f).
      destruct (outcome (loop cfg send_emails rest f)) as [[|] | e];
        destruct f; simpl in *; lia.
    + change (send_count []) with 0%nat. change (reset_count []) with 0%nat.
      simpl in Hbody. lia.
Qed.

(** X12.  In any run, from any flag, the number of send attempts is at most
    the number of times the flag was reset to false, plus one if the run
    started with the flag false: between two sends there is always a reset. *)
Theorem sends_bounded_by_resets (cfg : config) (send_emails : bool)
    (envs : list tick_env) (flag : bool) :
  (send_count (trace (loop cfg send_emails envs flag)) <=
   (if flag then 0 else 1) +
   reset_count (trace (loop cfg send_emails envs flag)))%nat.
Proof.
  pose proof (loop_send_budget_aux cfg send_emails envs flag) as Haux.
  destruct (outcome (loop cfg send_emails envs flag)) as [[|] | e]; lia.
Qed.

(** X7.  A run that gets through all its iterations sleeps 60 seconds once
    per iteration and asks for the station's position once per iteration. *)
Theorem completed_run_sleeps_every_iteration (cfg : config)
    (send_emails : bool) (envs : list tick_env) (flag final : bool) :
  outcome (loop cfg send_emails envs flag) = Ok final ->
  filter is_sleep (trace (loop cfg send_emails envs flag)) =
    repeat (Sleep 60) (List.length envs) /\
  filter (is_request_to ISS_API_URL) (trace (loop cfg send_emails envs flag)) =
    repeat (HttpGet ISS_API_URL []) (List.length envs).
Proof.
  revert flag. induction envs as [| env rest IH]; intros flag Hok.
  - split; reflexivity.
  - cbn [loop] in *. rewrite outcome_bind in Hok.
    rewrite trace_bind, !filter_app.
    destruct (loop_body_completes cfg send_emails env flag) as [Hsleep Hget].
    destruct (outcome (loop_body cfg send_emails env flag)) as [f | e];
      [| discriminate].
    destruct (IH f Hok) as [-> ->]. rewrite Hsleep, Hget. split; reflexivity.
Qed.

(** X5.  The only exceptions that end a run are the ones a fetcher lets
    through: if the run raises [e], then [e] is not a [RequestException]
    and some iteration's position fetch raised it, or its daylight fetch did
    while the station was within range.  The notifier never ends a run. *)
Theorem run_exception_comes_from_a_fetcher (cfg : config)
    (send_emails : bool) (envs : list tick_env) (flag : bool) (e : exn) :
  outcome (loop cfg send_emails envs flag) = Raise e ->
  is_RequestException e = false /\
  exists env,
    In env envs /\
    (outcome (get_iss_location (iss_reply env)) = Raise e \/
     overhead_at env = Some true /\
     outcome (get_sunrise_sunset_times MY_LAT MY_LONG (sun_reply env)) =
       Raise e).
Proof.
  revert flag. induction envs as [| env rest IH]; intros flag Hraise;
    [discriminate |].
  cbn [loop] in Hraise. rewrite outcome_bind in Hraise.
  destruct (outcome (loop_body cfg send_emails env flag)) as [f | e'] eqn:Hbody.
  - destruct (IH f Hraise) as (Hclass & env' & Hin & Hsource).
    split; [exact Hclass |]. exists env'. split; [now right | exact Hsource].
  - injection Hraise as ->.
    destruct (loop_body_raises cfg send_emails env flag e Hbody)
      as (Hclass & _ & Hsource).
    split; [exact Hclass |]. exists env. split; [now left | exact Hsource].
Qed.

(** X6.  When no position fetch and no daylight fetch of a run raises, the
    run gets through all its iterations, whatever happens to the SMTP
    sessions on the way. *)
Theorem run_completes_when_fetchers_return (cfg : config)
    (send_emails : bool) (envs : list tick_env) (flag : bool) :
  Forall (fun env =>
            raised (outcome (get_iss_location (iss_reply env))) = None /\
            raised (outcome (get_sunrise_sunset_times MY_LAT MY_LONG
                               (sun_reply env))) = None) envs ->
  exists final, outcome (loop cfg send_emails envs flag) = Ok final.
Proof.
  intro Hall. revert flag.
  induction Hall as [| env rest [Hiss Hsun] _ IH]; intro flag.
  - exists flag. reflexivity.
  - cbn [loop]. rewrite outcome_bind.
    destruct (outcome (loop_body cfg send_emails env flag)) as [f | e] eqn:Hbody.
    + apply IH.
    + destruct (loop_body_raises cfg send_emails env flag e Hbody)
        as (_ & _ & [Hsource | [_ Hsource]]).
      * rewrite Hsource in Hiss. discriminate.
      * rewrite Hsource in Hsun. discriminate.
Qed.

Lemma loop_sets_flag (cfg : config) (send_emails : bool)
    (envs : list tick_env) (flag : bool) :
  outcome (loop cfg send_emails envs flag) = Ok true ->
  flag = true \/
  send_emails = true /\
  (1 <= send_count (trace (loop cfg send_emails envs flag)))%nat.
Proof.
  revert flag. induction envs as [| env rest IH]; intros flag Hend.
  - left. now injection Hend.
  - cbn [loop] in *. rewrite outcome_bind in Hend.
    rewrite trace_bind, send_count_app.
    destruct (outcome (loop_body cfg send_emails env flag)) as [f | e] eqn:Hbody;
      [| discriminate].
    destruct (IH f Hend) as [-> | [Hon Hsent]].
    + destruct (loop_body_sets_flag cfg send_emails env flag Hbody)
        as [-> | [Hon Hsent]]; [now left |].
      right. split; [exact Hon | lia].
    + right. split; [exact Hon | lia].
Qed.

(** X13.  A run that starts with the flag false and ends with it true had
    notifications enabled and attempted at least one send: nothing but the
    statement after the notifier call makes the flag true. *)
Theorem flag_true_only_after_send (cfg : config) (send_emails : bool)
    (envs : list tick_env) :
  outcome (loop cfg send_emails envs false) = Ok true ->
  send_emails = true /\
  (1 <= send_count (trace (loop cfg send_emails envs false)))%nat.
Proof.
  intro Hend.
  destruct (loop_sets_flag cfg send_emails envs false Hend) as [H | H];
    [discriminate | exact H].
Qed.

(** ** The fetchers' results *)

(** X3.  [get_iss_location] has three kinds of result and no other: the
    unavailable pair together with the error line, exactly when the request
    failed inside [requests]; both coordinates, only for a decoded document;
    or an exception that is not a [RequestException], from a reply on which
    the request itself did not fail.  It never returns one coordinate
    without the other and makes exactly one request. *)
Theorem get_iss_location_results (reply : http_reply) :
  match get_iss_location reply with
  | (t, Ok (None, None)) =>
      request_fails reply /\
      t = [HttpGet ISS_API_URL []; Print MsgIssFetchError]
  | (t, Ok (Some _, Some _)) =>
      (exists data, reply = JsonOk data) /\ t = [HttpGet ISS_API_URL []]
  | (t, Ok _) => False
  | (t, Raise e) =>
      is_RequestException e = false /\ ~ request_fails reply /\
      t = [HttpGet ISS_API_URL []]
  end.
Proof.
  destruct (get_iss_location_cases reply)
    as [[Hfail ->] | [Hnofail [(data & x & y & -> & ->) | (e & He & ->)]]];
    eauto.
Qed.

(** X4.  [get_sunrise_sunset_times] likewise: the unavailable pair and the
    error line exactly when the request failed inside [requests]; both hours
    only for a decoded document; otherwise an exception that is not a
    [RequestException].  The one request it makes carries the coordinates it
    was given and [formatted=0]. *)
Theorem get_sunrise_sunset_times_results (latitude longitude : float)
    (reply : http_reply) :
  let request :=
    HttpGet SUNRISE_SUNSET_API_URL
      [("lat", JFloat latitude); ("lng", JFloat longitude);
       ("formatted", JInt 0)] in
  match get_sunrise_sunset_times latitude longitude reply with
  | (t, Ok (None, None)) =>
      request_fails reply /\ t = [request; Print MsgSunFetchError]
  | (t, Ok (Some _, Some _)) =>
      (exists data, reply = JsonOk data) /\ t = [request]
  | (t, Ok _) => False
  | (t, Raise e) =>
      is_RequestException e = false /\ ~ request_fails reply /\ t = [request]
  end.
Proof.
  intro request. subst request.
  destruct (get_sunrise_sunset_times_cases latitude longitude reply)
    as [[Hfail ->] | [Hnofail [(data & x & y & -> & ->) | (e & He & ->)]]];
    eauto.
Qed.

(** ** Reading the hours *)

Lemma hour_of_timestamp (members results : list (string * json))
    (field date hour rest : string) :
  dict_get "results" members = Some (JObj results) ->
  dict_get field results =
    Some (JStr (date ++ String "T" (hour ++ String ":" rest))) ->
  occurs_in "T" date = false ->
  occurs_in "T" hour = false ->
  occurs_in ":" hour = false ->
  hour_of (JObj members) field = py_int hour.
Proof.
  intros Hresults Hfield Hdate HhourT Hhour.
  unfold hour_of, getitem. rewrite Hresults, bind_ret_l.
  rewrite Hfield, bind_ret_l.
  unfold split_method. rewrite bind_ret_l.
  rewrite (split_before_separator "T" date _ Hdate).
  destruct (split_keeps_prefix "T" ":" hour rest HhourT eq_refl)
    as (tail & pieces & ->).
  unfold list_item at 1. cbn [nth_error]. rewrite bind_ret_l.
  rewrite (split_before_separator ":" hour _ Hhour).
  unfold list_item. cbn [nth_error]. now rewrite bind_ret_l.
Qed.

Lemma get_sunrise_sunset_times_json_ok (latitude longitude : float)
    (data : json) :
  outcome (get_sunrise_sunset_times latitude longitude (JsonOk data)) =
  outcome (sunrise_utc <- hour_of data "sunrise" ;;
           sunset_utc <- hour_of data "sunset" ;;
           ret (Some sunrise_utc, Some sunset_utc)).
Proof.
  unfold get_sunrise_sunset_times.
  erewrite (fetch_then_parse (fun p => exists x y, p = (Some x, Some y)));
    [reflexivity |].
  intro d.
  repeat first
    [ eapply parses_bind; [apply parses_hour_of | intros ? _]
    | apply parses_ret; eauto ].
Qed.

(** X1.  From a daylight document whose two timestamps have the form
    date, "T", hour, ":", anything, [get_sunrise_sunset_times] returns the
    integer values of the two hour fields, sunrise first: the date, the
    minutes, the seconds and the zone offset play no part. *)
Theorem get_sunrise_sunset_times_reads_hours (latitude longitude : float)
    (members results : list (string * json))
    (date1 hour1 rest1 date2 hour2 rest2 : string) (sunrise sunset : Z) :
  dict_get "results" members = Some (JObj results) ->
  dict_get "sunrise" results =
    Some (JStr (date1 ++ String "T" (hour1 ++ String ":" rest1))) ->
  dict_get "sunset" results =
    Some (JStr (date2 ++ String "T" (hour2 ++ String ":" rest2))) ->
  occurs_in "T" date1 = false -> occurs_in "T" hour1 = false ->
  occurs_in ":" hour1 = false ->
  occurs_in "T" date2 = false -> occurs_in "T" hour2 = false ->
  occurs_in ":" hour2 = false ->
  int_of_str hour1 = Some sunrise ->
  int_of_str hour2 = Some sunset ->
  outcome (get_sunrise_sunset_times latitude longitude (JsonOk (JObj members)))
  = Ok (Some sunrise, Some sunset).
Proof.
  intros Hresults Hrise Hset Hd1 Hh1 Hc1 Hd2 Hh2 Hc2 Hint1 Hint2.
  rewrite get_sunrise_sunset_times_json_ok.
  rewrite (hour_of_timestamp members results "sunrise" date1 hour1 rest1)
    by assumption.
  rewrite (hour_of_timestamp members results "sunset" date2 hour2 rest2)
    by assumption.
  unfold py_int. rewrite Hint1, Hint2. reflexivity.
Qed.

(** X2.  A daylight document the script cannot read makes the fetcher raise
    instead of returning: [KeyError] without a [results] member,
    [AttributeError] when the sunrise value is not a string, [IndexError]
    when it is a string without a "T", and [ValueError] when its hour field
    is not an integer literal. *)
Theorem daylight_document_errors (latitude longitude : float)
    (members results : list (string * json)) :
  (dict_get "results" members = None ->
   outcome (get_sunrise_sunset_times latitude longitude
              (JsonOk (JObj members))) = Raise KeyError) /\
  (forall stamp,
     dict_get "results" members = Some (JObj results) ->
     dict_get "sunrise" results = Some stamp ->
     (forall s, stamp <> JStr s) ->
     outcome (get_sunrise_sunset_times latitude longitude
                (JsonOk (JObj members))) = Raise AttributeError) /\
  (forall s,
     dict_get "results" members = Some (JObj results) ->
     dict_get "sunrise" results = Some (JStr s) ->
     occurs_in "T" s = false ->
     outcome (get_sunrise_sunset_times latitude longitude
                (JsonOk (JObj members))) = Raise IndexError) /\
  (forall date hour rest,
     dict_get "results" members = Some (JObj results) ->
     dict_get "sunrise" results =
       Some (JStr (date ++ String "T" (hour ++ String ":" rest))) ->
     occurs_in "T" date = false -> occurs_in "T" hour = false ->
     occurs_in ":" hour = false ->
     int_of_str hour = None ->
     outcome (get_sunrise_sunset_times latitude longitude
                (JsonOk (JObj members))) = Raise ValueError).
Proof.
  repeat split.
  - intro Hnone. rewrite get_sunrise_sunset_times_json_ok.
    unfold hour_of, getitem. rewrite Hnone. reflexivity.
  - intros stamp Hresults Hstamp Hnot.
    rewrite get_sunrise_sunset_times_json_ok. unfold hour_of, getitem.
    rewrite Hresults, bind_ret_l, Hstamp, bind_ret_l.
    destruct stamp; try reflexivity. now destruct (Hnot s).
  - intros s Hresults Hstamp Hno.
    rewrite get_sunrise_sunset_times_json_ok. unfold hour_of, getitem.
    rewrite Hresults, bind_ret_l, Hstamp, bind_ret_l.
    unfold split_method. rewrite bind_ret_l.
    assert (Hone : split "T" s = [s]).
    { clear Hstamp. induction s as [| c s IH]; [reflexivity |].
      simpl in *. apply orb_false_iff in Hno as [Hc Hs].
      now rewrite Hc, (IH Hs). }
    rewrite Hone. reflexivity.
  - intros date hour rest Hresults Hstamp Hd Hh Hc Hint.
    rewrite get_sunrise_sunset_times_json_ok.
    rewrite (hour_of_timestamp members results "sunrise" date hour rest)
      by assumption.
    unfold py_int. rewrite Hint. reflexivity.
Qed.

(** X14.  When the station is within range and the daylight fetch raises,
    the run ends in that very iteration with that exception: it has sent
    nothing and slept not at all in it, and no later iteration runs. *)
Theorem daylight_exception_ends_run (cfg : config) (send_emails : bool)
    (env : tick_env) (rest : list tick_env) (flag : bool) (e : exn) :
  overhead_at env = Some true ->
  outcome (get_sunrise_sunset_times MY_LAT MY_LONG (sun_reply env)) = Raise e ->
  outcome (loop cfg send_emails (env :: rest) flag) = Raise e /\
  trace (loop cfg send_emails (env :: rest) flag) =
    trace (loop_body cfg send_emails env flag) /\
  send_count (trace (loop_body cfg send_emails env flag)) = 0%nat /\
  filter is_sleep (trace (loop_body cfg send_emails env flag)) = [].
Proof.
  intros Hover Hsun.
  assert (Hbody : outcome (loop_body cfg send_emails env flag) = Raise e).
  { revert Hover Hsun. iteration_cases env; congruence. }
  cbn [loop]. rewrite outcome_bind, trace_bind, Hbody.
  destruct (loop_body_raises cfg send_emails env flag e Hbody)
    as (_ & Hsends & _).
  destruct (loop_body_completes cfg send_emails env flag) as [Hsleep _].
  rewrite Hbody in Hsleep.
  repeat split; try assumption. now rewrite app_nil_r.
Qed.

(** ** The night predicate and the credentials *)

(** X9.  [is_night] does not look at the hour: with both values present it
    answers true at every hour when sunset < sunrise and false at every hour
    otherwise, and with a value missing it answers true. *)
Theorem is_night_ignores_hour (sunrise_utc sunset_utc : option Z) (h h' : Z) :
  is_night sunrise_utc sunset_utc h = is_night sunrise_utc sunset_utc h' /\
  is_night sunrise_utc sunset_utc h =
    match sunrise_utc, sunset_utc with
    | Some sunrise, Some sunset => sunset <? sunrise
    | _, _ => true
    end.
Proof.
  unfold is_night.
  destruct sunrise_utc as [sunrise |], sunset_utc as [sunset |];
    try (split; reflexivity).
  destruct (Z.ltb_spec sunset sunrise); split; lia.
Qed.

(** X10.  [main] treats an empty variable like an absent one: if any of
    the three credentials is [None] or the empty string, the run prints the
    warning and makes no send. *)
Theorem empty_credentials_no_send (cfg : config) (envs : list tick_env) :
  py_not (SENDER_EMAIL cfg) = true \/ py_not (RECEIVER_EMAIL cfg) = true \/
  py_not (EMAIL_PASSWORD cfg) = true ->
  send_count (trace (main cfg envs)) = 0%nat /\
  In (Print MsgCredentialsMissing) (trace (main cfg envs)).
Proof.
  intro Hfalsy.
  assert (Hmain :
    main cfg envs =
    (([Print MsgStarted; Print (MsgMonitoring MY_LAT MY_LONG);
       Print MsgCredentialsMissing; Print MsgNotificationsOff]
      ++ trace (loop cfg false envs false))%list,
     outcome (loop cfg false envs false))).
  { unfold main.
    assert (py_not (SENDER_EMAIL cfg) || py_not (RECEIVER_EMAIL cfg)
            || py_not (EMAIL_PASSWORD cfg) = true) as ->.
    { destruct Hfalsy as [-> | [-> | ->]]; simpl;
        rewrite ?orb_true_r; reflexivity. }
    simpl. now destruct (loop cfg false envs false). }
  rewrite Hmain, trace_pair. split.
  - rewrite send_count_app.
    destruct (loop_monitoring cfg cfg false envs false false) as [Hm _].
    rewrite <- Hm, send_count_monitoring. reflexivity.
  - simpl. auto.
Qed.

(** X17.  Iterations whose position fetch is unavailable, mixed into a run
    of overhead-and-night iterations, do not lead to a second notification:
    such a run never resets the flag and attempts at most one send, and none
    if it started with the flag true. *)
Theorem outages_do_not_renotify (cfg : config) (send_emails : bool)
    (envs : list tick_env) (flag : bool) :
  Forall (fun env => overhead_and_night env \/ position_unavailable env) envs ->
  reset_count (trace (loop cfg send_emails envs flag)) = 0%nat /\
  (send_count (trace (loop cfg send_emails envs flag)) <=
   if flag then 0 else 1)%nat.
Proof.
  intro Hall.
  assert (Hnone : reset_count (trace (loop cfg send_emails envs flag)) = 0%nat).
  { revert flag. induction Hall as [| env rest Henv _ IH]; intro flag;
      [reflexivity |].
    cbn [loop]. rewrite trace_bind, reset_count_app.
    assert (Hbody :
      reset_count (trace (loop_body cfg send_emails env flag)) = 0%nat).
    { unfold reset_count. destruct Henv as [Hon | Hout].
      - destruct (loop_body_overhead_night cfg send_emails env flag Hon)
          as (iss_lat & iss_long & pre & Hq & ->).
        rewrite trace_pair, send_iss_notification_email_runs, !filter_app.
        rewrite (quiet_filter is_reset pre); [| | exact Hq].
        + destruct (send_emails && negb flag), (smtp_error env); reflexivity.
        + intros [] Ha; try reflexivity. destruct b; [reflexivity |].
          discriminate.
      - rewrite (loop_body_position_unavailable cfg send_emails env flag Hout),
          trace_pair, filter_app.
        rewrite (quiet_filter is_reset _); [reflexivity | |
          apply quiet_get_iss_location].
        intros [] Ha; try reflexivity. destruct b; [reflexivity |].
        discriminate. }
    rewrite Hbody.
    destruct (outcome (loop_body cfg send_emails env flag)) as [f | e];
      [apply IH | reflexivity]. }
  split; [exact Hnone |].
  pose proof (loop_send_budget_aux cfg send_emails envs flag) as Haux.
  rewrite Hnone in Haux.
  destruct (outcome (loop cfg send_emails envs flag)) as [[|] | e]; lia.
Qed.

(** ** Coordinates that are not finite, and the observer's own *)

Lemma not_below_five (x : float) :
  Prim2SF x = S754_nan \/ Prim2SF x = S754_infinity false ->
  (x <? 5)%float = false.
Proof.
  intro Hx. rewrite ltb_spec. destruct Hx as [-> | ->]; reflexivity.
Qed.

Lemma distance_to_non_finite (a b : float) :
  b = nan \/ b = infinity \/ b = neg_infinity ->
  Prim2SF (abs (a - b)) = S754_nan \/
  Prim2SF (abs (a - b)) = S754_infinity false.
Proof.
  intro Hb. rewrite abs_spec, sub_spec. unfold SF64sub.
  destruct Hb as [-> | [-> | ->]];
    [change (Prim2SF nan) with S754_nan
    | change (Prim2SF infinity) with (S754_infinity false)
    | change (Prim2SF neg_infinity) with (S754_infinity true)];
    destruct (Prim2SF a) as [[|] | [|] | | [|] m e]; simpl; auto.
Qed.

Lemma distance_to_itself (a : float) :
  a <> nan -> a <> infinity -> a <> neg_infinity ->
  Prim2SF (abs (a - a)) = S754_zero false.
Proof.
  intros Hnan Hinf Hninf. rewrite abs_spec, sub_spec. unfold SF64sub.
  pose proof (SF2Prim_Prim2SF a) as Hback.
  destruct (Prim2SF a) as [[|] | [|] | | s m e]; simpl.
  - reflexivity.
  - reflexivity.
  - now destruct Hninf.
  - now destruct Hinf.
  - now destruct Hnan.
  - rewrite Z.sub_diag. reflexivity.
Qed.

(** X15.  A station coordinate that is NaN or infinite (the values
    [float] makes of "nan", "inf" and "-inf") is never within range,
    wherever the observer is. *)
Theorem non_finite_position_never_overhead
    (my_lat my_long iss_lat iss_long : float) :
  (iss_lat = nan \/ iss_lat = infinity \/ iss_lat = neg_infinity) \/
  (iss_long = nan \/ iss_long = infinity \/ iss_long = neg_infinity) ->
  is_iss_overhead my_lat my_long iss_lat iss_long = false.
Proof.
  intros [H | H]; unfold is_iss_overhead.
  - now rewrite (not_below_five _ (distance_to_non_finite my_lat iss_lat H)).
  - rewrite (not_below_five _ (distance_to_non_finite my_long iss_long H)).
    now rewrite andb_false_r.
Qed.

(** X16.  A station exactly at the observer's coordinates is within range,
    for every observer whose coordinates are finite numbers. *)
Theorem observer_position_is_overhead (my_lat my_long : float) :
  my_lat <> nan -> my_lat <> infinity -> my_lat <> neg_infinity ->
  my_long <> nan -> my_long <> infinity -> my_long <> neg_infinity ->
  is_iss_overhead my_lat my_long my_lat my_long = true.
Proof.
  intros. unfold is_iss_overhead.
  rewrite !ltb_spec, !distance_to_itself by assumption. reflexivity.
Qed.

End Script.

(** * The properties on sample runs

    The decimal parsers stand in for [float] and [int]; the replies are the
    documents of the two services. *)

(** C7, on the script.  A position document without its [iss_position]
    member, or with a latitude that is not a number, makes
    [get_iss_location] raise [KeyError], resp. [ValueError], instead of
    returning the unavailable pair; the exception leaves the iteration before
    it prints or sleeps, and the loop with it, so the next iteration (here a
    perfectly good overhead-and-night one) never runs. *)
Theorem malformed_position_reply_raises :
  get_iss_location decimal_float (iss_reply env_missing_field) =
    ([HttpGet ISS_API_URL []], Raise KeyError) /\
  get_iss_location decimal_float (iss_reply env_non_numeric) =
    ([HttpGet ISS_API_URL []], Raise ValueError) /\
  loop decimal_float decimal_int cfg_complete true
    [env_missing_field; env_overhead_night] false =
    ([HttpGet ISS_API_URL []], Raise KeyError) /\
  loop decimal_float decimal_int cfg_complete true
    [env_non_numeric; env_overhead_night] false =
    ([HttpGet ISS_API_URL []], Raise ValueError).
Proof. repeat split; vm_compute; reflexivity. Qed.

(** The part of C7 the script does implement: a request that fails in
    [requests] yields the unavailable pair, and the loop goes on to the next
    iteration. *)
Example request_failure_then_next_iteration :
  outcome (get_iss_location decimal_float (iss_reply env_request_fails)) =
    Ok (None, None) /\
  send_count
    (trace (loop decimal_float decimal_int cfg_complete true
              [env_request_fails; env_overhead_night] false)) = 1%nat.
Proof. split; vm_compute; reflexivity. Qed.

(** C8 as the specification words it, refuted on a run: in an iteration
    whose send fails, the send attempt is the seventh action and the
    assignment [SetFlag true] the tenth, after the two failure reports; the
    flag is not set before the send attempt. *)
Lemma flag_assigned_after_failed_send :
  let t := trace (loop_body decimal_float decimal_int cfg_complete true
                    env_overhead_night_smtp_fails false) in
  first_index is_send t = Some 6%nat /\
  first_index is_set_true t = Some 9%nat /\
  precedes is_set_true is_send t = false.
Proof. repeat split; vm_compute; reflexivity. Qed.

Lemma one_send_per_overhead_night_interval_witness :
  credentials_present cfg_complete /\
  overhead_and_night decimal_float decimal_int env_overhead_night /\
  overhead_and_day decimal_float decimal_int env_overhead_day /\
  send_count
    (trace (main decimal_float decimal_int cfg_complete
              [env_overhead_night; env_overhead_night; env_overhead_day;
               env_overhead_night])) = 2%nat.
Proof.
  assert (Hcred : credentials_present cfg_complete)
    by (repeat split; reflexivity).
  assert (Hnight : overhead_and_night decimal_float decimal_int
                     env_overhead_night)
    by (split; vm_compute; reflexivity).
  assert (Hday : overhead_and_day decimal_float decimal_int env_overhead_day)
    by (split; vm_compute; reflexivity).
  split; [exact Hcred | split; [exact Hnight | split; [exact Hday |]]].
  apply (one_send_per_overhead_night_interval decimal_float decimal_int
           cfg_complete env_overhead_night env_overhead_night
           env_overhead_day env_overhead_night Hcred Hnight Hnight Hday Hnight).
Defined.

Lemma is_night_daylight_unavailable_witness :
  is_night None (Some 12) 3 = true.
Proof. apply is_night_daylight_unavailable. left. reflexivity. Defined.

Lemma is_night_plain_window_never_witness :
  6 <= 18 /\ is_night (Some 6) (Some 18) 3 = false.
Proof.
  split; [lia |]. apply (is_night_plain_window_never 6 18 3). lia.
Defined.


Lemma failed_send_still_sets_flag_witness :
  overhead_and_night decimal_float decimal_int env_overhead_night_smtp_fails /\
  outcome (loop_body decimal_float decimal_int cfg_complete true
             env_overhead_night_smtp_fails false) = Ok true.
Proof.
  assert (Hfail : overhead_and_night decimal_float decimal_int
                    env_overhead_night_smtp_fails)
    by (split; vm_compute; reflexivity).
  assert (Hnext : overhead_and_night decimal_float decimal_int
                    env_overhead_night)
    by (split; vm_compute; reflexivity).
  split; [assumption |].
  apply (failed_send_still_sets_flag decimal_float decimal_int cfg_complete
           env_overhead_night_smtp_fails env_overhead_night SMTPError
           Hfail eq_refl Hnext).
Defined.

Lemma flag_kept_while_position_unavailable_witness :
  Forall (position_unavailable decimal_float)
    [env_request_fails; env_request_fails] /\
  outcome (loop decimal_float decimal_int cfg_complete true
             [env_request_fails; env_request_fails] true) = Ok true.
Proof.
  assert (Hall : Forall (position_unavailable decimal_float)
                   [env_request_fails; env_request_fails])
    by (repeat constructor).
  split; [assumption |].
  apply (flag_kept_while_position_unavailable decimal_float decimal_int
           cfg_complete true [env_request_fails; env_request_fails] true Hall).
Defined.

(** * The further properties on sample runs *)

Lemma get_sunrise_sunset_times_reads_hours_witness :
  outcome (get_sunrise_sunset_times decimal_int MY_LAT MY_LONG
             (sun_reply env_overhead_night)) = Ok (Some 18, Some 6).
Proof.
  apply (get_sunrise_sunset_times_reads_hours decimal_int MY_LAT MY_LONG
           [("results",
             JObj [("sunrise", JStr "2024-01-15T18:05:12+00:00");
                   ("sunset", JStr "2024-01-15T06:30:05+00:00")]);
            ("status", JStr "OK")]
           [("sunrise", JStr "2024-01-15T18:05:12+00:00");
            ("sunset", JStr "2024-01-15T06:30:05+00:00")]
           "2024-01-15" "18" "05:12+00:00"
           "2024-01-15" "06" "30:05+00:00" 18 6);
    reflexivity.
Defined.

Lemma daylight_document_errors_witness :
  outcome (get_sunrise_sunset_times decimal_int MY_LAT MY_LONG
             (sun_reply env_daylight_malformed)) = Raise KeyError.
Proof.
  apply (proj1 (daylight_document_errors decimal_int MY_LAT MY_LONG
                  [("status", JStr "INVALID_REQUEST")] [])).
  reflexivity.
Defined.

Lemma run_exception_comes_from_a_fetcher_witness :
  outcome (loop decimal_float decimal_int cfg_complete true
             [env_request_fails; env_missing_field; env_overhead_night] false)
    = Raise KeyError /\
  is_RequestException KeyError = false.
Proof.
  assert (Hraise :
    outcome (loop decimal_float decimal_int cfg_complete true
               [env_request_fails; env_missing_field; env_overhead_night]
               false) = Raise KeyError)
    by (vm_compute; reflexivity).
  split; [exact Hraise |].
  apply (proj1 (run_exception_comes_from_a_fetcher decimal_float decimal_int
                  cfg_complete true
                  [env_request_fails; env_missing_field; env_overhead_night]
                  false KeyError Hraise)).
Defined.

Lemma run_completes_when_fetchers_return_witness :
  exists final,
    outcome (loop decimal_float decimal_int cfg_complete true
               [env_overhead_night_smtp_fails; env_overhead_day] false)
    = Ok final.
Proof.
  apply (run_completes_when_fetchers_return decimal_float decimal_int
           cfg_complete true
           [env_overhead_night_smtp_fails; env_overhead_day] false).
  repeat constructor.
Defined.

Lemma completed_run_sleeps_every_iteration_witness :
  filter is_sleep
    (trace (loop decimal_float decimal_int cfg_complete true
              [env_overhead_night; env_request_fails; env_not_overhead] false))
  = [Sleep 60; Sleep 60; Sleep 60].
Proof.
  assert (Hok :
    outcome (loop decimal_float decimal_int cfg_complete true
               [env_overhead_night; env_request_fails; env_not_overhead]
               false) = Ok false)
    by (vm_compute; reflexivity).
  apply (proj1 (completed_run_sleeps_every_iteration decimal_float decimal_int
                  cfg_complete true
                  [env_overhead_night; env_request_fails; env_not_overhead]
                  false false Hok)).
Defined.

Lemma empty_credentials_no_send_witness :
  py_not (EMAIL_PASSWORD cfg_empty_password) = true /\
  send_count
    (trace (main decimal_float decimal_int cfg_empty_password
              [env_overhead_night; env_overhead_night])) = 0%nat.
Proof.
  split; [reflexivity |].
  apply (proj1 (empty_credentials_no_send decimal_float decimal_int
                  cfg_empty_password [env_overhead_night; env_overhead_night]
                  (or_intror (or_intror eq_refl)))).
Defined.

Lemma flag_true_only_after_send_witness :
  (1 <= send_count
          (trace (loop decimal_float decimal_int cfg_complete true
                    [env_not_overhead; env_overhead_night_smtp_fails] false)))%nat.
Proof.
  assert (Hend :
    outcome (loop decimal_float decimal_int cfg_complete true
               [env_not_overhead; env_overhead_night_smtp_fails] false)
    = Ok true)
    by (vm_compute; reflexivity).
  apply (proj2 (flag_true_only_after_send decimal_float decimal_int
                  cfg_complete true
                  [env_not_overhead; env_overhead_night_smtp_fails] Hend)).
Defined.

Lemma daylight_exception_ends_run_witness :
  overhead_at decimal_float env_daylight_malformed = Some true /\
  outcome (loop decimal_float decimal_int cfg_complete true
             [env_daylight_malformed; env_overhead_night] false)
    = Raise KeyError.
Proof.
  assert (Hover : overhead_at decimal_float env_daylight_malformed = Some true)
    by (vm_compute; reflexivity).
  split; [exact Hover |].
  apply (proj1 (daylight_exception_ends_run decimal_float decimal_int
                  cfg_complete true env_daylight_malformed
                  [env_overhead_night] false KeyError Hover eq_refl)).
Defined.

Lemma non_finite_position_never_overhead_witness :
  is_iss_overhead MY_LAT MY_LONG nan 77 = false.
Proof.
  apply (non_finite_position_never_overhead MY_LAT MY_LONG nan 77).
  left. left. reflexivity.
Defined.

Lemma observer_position_is_overhead_witness :
  is_iss_overhead MY_LAT MY_LONG MY_LAT MY_LONG = true.
Proof.
  apply (observer_position_is_overhead MY_LAT MY_LONG);
    intro Heq; apply (f_equal classify) in Heq;
    vm_compute in Heq; discriminate.
Defined.

Lemma outages_do_not_renotify_witness :
  (send_count
     (trace (loop decimal_float decimal_int cfg_complete true
               [env_overhead_night; env_request_fails; env_overhead_night]
               false)) <= 1)%nat.
Proof.
  assert (Hnight : overhead_and_night decimal_float decimal_int
                     env_overhead_night)
    by (split; vm_compute; reflexivity).
  assert (Hout : position_unavailable decimal_float env_request_fails)
    by reflexivity.
  apply (proj2 (outages_do_not_renotify decimal_float decimal_int cfg_complete
                  true
                  [env_overhead_night; env_request_fails; env_overhead_night]
                  false
                  (Forall_cons _ (or_introl Hnight)
                     (Forall_cons _ (or_intror Hout)
                        (Forall_cons _ (or_introl Hnight)
                           (Forall_nil _)))))).
Defined.

Lemma is_iss_overhead_rounded_bounding_box_witness :
  (exists d, exact_distance 0 5 = Some d /\ (d == 5)%Q) /\
  is_iss_overhead 0 0 5 0 = false.
Proof.
  assert (Hd : exact_distance 0 5 =
               Some (Qabs (0 - 5629499534213120 * (2 # 1) ^ (-50)))%Q)
    by (vm_compute; reflexivity).
  split.
  - eexists. split; [exact Hd | vm_compute; reflexivity].
  - apply (proj2 (proj2 (proj2
             (is_iss_overhead_rounded_bounding_box 0 0 5 0))) _
             (or_introl Hd)).
    vm_compute. discriminate.
Defined.
